(** * listen-again: the session / voting state machine of [src/server.js]

    A shallow embedding of the webhook handler [router.post('/')] of the
    current server (lines 1-832 of [src/server.js]) together with the
    command names of [src/commands.js], followed by the properties of the
    specification that were checked against it.

    Modelling conventions.
    - Strings are [string]s of 8-bit characters; on ASCII text this is the
      JavaScript string.
    - A Discord user id (a snowflake, sent as a string of decimal digits) is
      the number it denotes.
    - JavaScript numbers are exact here: counts and points are integers
      ([Z]), the quotient [totalPoints / participantCount] is a rational
      ([Q]).  The handler only compares such quotients, and for counts far
      below 2^26 the comparison of the doubles agrees with the comparison of
      the rationals.
    - The key-value store [env.DB] holds one text per key.  Every key is only
      ever written with one shape of JSON, so the store is a record with one
      typed cell per key; [None] is the absent key ([get] gives [null]).
    - A handler is a computation that threads the store and records every
      [get], [put] and [delete] it issues, in order. *)

From Stdlib Require Import Ascii String QArith.
From stdpp Require Import gmap strings list fin_maps sorting.

Open Scope Z_scope.

(** ** Text helpers standing for the regular expressions of the source *)

Module Text.

(** [.] of a regular expression without the [s] flag: any character but a
    line terminator (line feed, carriage return). *)
Definition line_terminator (c : ascii) : bool :=
  bool_decide (c = "010"%char) || bool_decide (c = "013"%char).

(** [\w]: [A-Za-z0-9_]. *)
Definition word_char (c : ascii) : bool :=
  let n := nat_of_ascii c in
  ((65 <=? n) && (n <=? 90))%nat || ((97 <=? n) && (n <=? 122))%nat
  || ((48 <=? n) && (n <=? 57))%nat || bool_decide (c = "_"%char).

(** One position of a pattern. *)
Inductive atom :=
  | Lit (c : ascii)
  | AnyChar
  | WordChar.

Definition atom_matches (a : atom) (c : ascii) : bool :=
  match a with
  | Lit d => bool_decide (c = d)
  | AnyChar => negb (line_terminator c)
  | WordChar => word_char c
  end.

(** Match a sequence of atoms at the head of [s]; the rest of [s] on
    success. *)
Fixpoint match_atoms (p : list atom) (s : string) : option string :=
  match p with
  | [] => Some s
  | a :: p' =>
      match s with
      | EmptyString => None
      | String c s' => if atom_matches a c then match_atoms p' s' else None
      end
  end.

Fixpoint lits (s : string) : list atom :=
  match s with
  | EmptyString => []
  | String c s' => Lit c :: lits s'
  end.

(** The first alternative of [alts] that matches at the head of [s]. *)
Fixpoint match_alternatives (alts : list (list atom)) (s : string) : option string :=
  match alts with
  | [] => None
  | p :: alts' =>
      match match_atoms p s with
      | Some rest => Some rest
      | None => match_alternatives alts' s
      end
  end.

(** The longest prefix of [s] whose characters all satisfy [ok]. *)
Fixpoint take_while (ok : ascii -> bool) (s : string) : string :=
  match s with
  | EmptyString => EmptyString
  | String c s' => if ok c then String c (take_while ok s') else EmptyString
  end.

(** [String.prototype.toLowerCase] on ASCII letters. *)
Definition lower_char (c : ascii) : ascii :=
  let n := nat_of_ascii c in
  if ((65 <=? n) && (n <=? 90))%nat then ascii_of_nat (n + 32) else c.

Fixpoint toLowerCase (s : string) : string :=
  match s with
  | EmptyString => EmptyString
  | String c s' => String (lower_char c) (toLowerCase s')
  end.

Fixpoint no_line_terminator (s : string) : bool :=
  match s with
  | EmptyString => true
  | String c s' => negb (line_terminator c) && no_line_terminator s'
  end.

End Text.

(** ** Helper functions of the server *)

(** [(youtu.be\/|v\/|u\/\w\/|embed\/|watch\?v=|&v=)] *)
Definition video_markers : list (list Text.atom) :=
  [ Text.lits "youtu" ++ [Text.AnyChar] ++ Text.lits "be/";
    Text.lits "v/";
    Text.lits "u/" ++ [Text.WordChar] ++ Text.lits "/";
    Text.lits "embed/";
    Text.lits "watch?v=";
    Text.lits "&v=" ].

(** The class [[^#&?]] of the second group. *)
Definition video_id_char (c : ascii) : bool :=
  negb (bool_decide (c = "#"%char) || bool_decide (c = "&"%char)
        || bool_decide (c = "?"%char)).

(** The second group of the expression of [getVideoId] on [s]: any
    characters, one of the markers, then the longest run of [[^#&?]] (the
    group), then any characters.  The leading "any characters" is greedy, so
    the marker taken is the last one that starts before the first line
    terminator; [last] is the group found so far while scanning from the
    left. *)
Fixpoint video_group (last : option string) (s : string) : option string :=
  let here :=
    match Text.match_alternatives video_markers s with
    | Some rest => Some (Text.take_while video_id_char rest)
    | None => last
    end in
  match s with
  | EmptyString => here
  | String c s' => if Text.line_terminator c then here else video_group here s'
  end.

(** [getVideoId] (server.js 38-42). *)
Definition getVideoId (url : string) : option string :=
  match video_group None url with
  | Some g => if bool_decide (String.length g = 11%nat) then Some g else None
  | None => None
  end.

(** The class [[^#&]] of the group of [getPlaylistId]. *)
Definition playlist_id_char (c : ascii) : bool :=
  negb (bool_decide (c = "#"%char) || bool_decide (c = "&"%char)).

(** [getPlaylistId] (server.js 44-48): the leftmost match of
    [/[?&]list=([^#&]+)/]. *)
Fixpoint getPlaylistId (url : string) : option string :=
  match url with
  | EmptyString => None
  | String c s' =>
      let here :=
        if bool_decide (c = "?"%char) || bool_decide (c = "&"%char) then
          match Text.match_atoms (Text.lits "list=") s' with
          | Some rest =>
              let g := Text.take_while playlist_id_char rest in
              if bool_decide (g = "") then None else Some g
          | None => None
          end
        else None in
      match here with
      | Some g => Some g
      | None => getPlaylistId s'
      end
  end.

(** [customId.match(/^vote_([12])_(.+)$/)], with [parseInt] applied to the
    first group (server.js 713-716): the points and the video id of a vote
    button. *)
Definition voteMatch (customId : string) : option (Z * string) :=
  match Text.match_atoms (Text.lits "vote_") customId with
  | Some (String d (String "_" rest)) =>
      if bool_decide (rest <> "") && Text.no_line_terminator rest then
        if bool_decide (d = "1"%char) then Some (1, rest)
        else if bool_decide (d = "2"%char) then Some (2, rest)
        else None
      else None
  | _ => None
  end.

(** ** Plain JavaScript objects used as dictionaries

    [HISTORY] is a plain object keyed by video id.  Its own properties are
    kept in enumeration order (the order of [Object.values] and of
    [JSON.stringify]): keys that are array indices first, in ascending
    numeric order, then the other keys in order of creation.  A read
    [o[k]] of a key that is not an own property goes to [Object.prototype]. *)

Module JSObject.

(** The property names of [Object.prototype]; each holds a function or an
    object, which is truthy. *)
Definition Object_prototype_names : list string :=
  [ "constructor"; "__defineGetter__"; "__defineSetter__"; "hasOwnProperty";
    "__lookupGetter__"; "__lookupSetter__"; "isPrototypeOf";
    "propertyIsEnumerable"; "toString"; "valueOf"; "__proto__";
    "toLocaleString" ].

Definition digit_of (c : ascii) : option N :=
  let n := N_of_ascii c in
  if ((48 <=? n) && (n <=? 57))%N then Some (n - 48)%N else None.

Fixpoint digits_value (acc : N) (s : string) : option N :=
  match s with
  | EmptyString => Some acc
  | String c s' =>
      match digit_of c with
      | Some d => digits_value (10 * acc + d)%N s'
      | None => None
      end
  end.

(** An array index: a canonical numeric string (no sign, no leading zero)
    whose value is at most 2^32 - 2. *)
Definition array_index (k : string) : option N :=
  match k with
  | EmptyString => None
  | String c rest =>
      if bool_decide (c = "0"%char) && bool_decide (rest <> "") then None
      else
        match digits_value 0 k with
        | Some n => if (n <=? 4294967294)%N then Some n else None
        | None => None
        end
  end.

Section Dict.
Context {A : Type}.

Definition dict := list (string * A).

(** What the read [o[k]] finds. *)
Inductive property :=
  | Own (a : A)
  | Inherited
  | Undefined.

Fixpoint own (o : dict) (k : string) : option A :=
  match o with
  | [] => None
  | (k', a) :: o' => if bool_decide (k' = k) then Some a else own o' k
  end.

Definition get_property (o : dict) (k : string) : property :=
  match own o k with
  | Some a => Own a
  | None => if bool_decide (k ∈ Object_prototype_names) then Inherited else Undefined
  end.

(** [o[k].field = ...] on an own property: the value changes in place. *)
Fixpoint update (k : string) (f : A -> A) (o : dict) : dict :=
  match o with
  | [] => []
  | (k', a) :: o' =>
      if bool_decide (k' = k) then (k', f a) :: o' else (k', a) :: update k f o'
  end.

(** Where a new array-index key [n] goes: before the first key that is
    not an array index or is a greater one. *)
Fixpoint insert_index (n : N) (k : string) (a : A) (o : dict) : dict :=
  match o with
  | [] => [(k, a)]
  | (k', a') :: o' =>
      match array_index k' with
      | Some n' =>
          if (n' <? n)%N then (k', a') :: insert_index n k a o'
          else (k, a) :: (k', a') :: o'
      | None => (k, a) :: (k', a') :: o'
      end
  end.

(** [o[k] = a] for a key that is not yet an own property. *)
Definition create (k : string) (a : A) (o : dict) : dict :=
  match array_index k with
  | Some n => insert_index n k a o
  | None => o ++ [(k, a)]
  end.

(** [Object.values(o)] *)
Definition values (o : dict) : list A := o.*2.

End Dict.

Arguments dict : clear implicits.
Arguments property : clear implicits.

End JSObject.

(** ** Data model *)

(** [interaction.member.user.id] *)
Abbreviation UserId := N.

(** An element of [QUEUE]: [{title, id, thumbnail}] (server.js 73-77);
    [thumbnail] may be undefined. *)
Record Track := mkTrack {
  track_title : string;
  track_id : string;
  track_thumbnail : option string
}.

(** [CURRENT_SONG]: [{title, id, votes: 0}] (server.js 249, 345-349). *)
Record Song := mkSong {
  song_title : string;
  song_id : string;
  song_votes : Z
}.

(** The text under [CURRENT_SONG]: the JSON of a song, or the empty string
    that vote-end writes (server.js 436). *)
Inductive SongText :=
  | EmptyText
  | SongJSON (song : Song).

(** A value of [HISTORY] (server.js 427-432). *)
Record Entry := mkEntry {
  title : string;
  totalPoints : Z;
  voterCount : Z;
  participantCount : Z
}.

Abbreviation History := (JSObject.dict Entry).

(** [VOTED_USERS]: a plain object from user id to points.  Only the set of
    its keys and the value per key are observed (a sum and a count), so it
    is a finite map. *)
Abbreviation VotedUsers := (gmap N Z).

(** The store [env.DB], one cell per key. *)
Record DB := mkDB {
  db_SESSION_ACTIVE : option string;
  db_QUEUE : option (list Track);
  db_CURRENT_SONG : option SongText;
  db_SESSION_PARTICIPANTS : option (list UserId);
  db_ELIGIBLE_VOTERS : option (list UserId);
  db_VOTED_USERS : option VotedUsers;
  db_HISTORY : option History
}.

(** The store before any request: no key. *)
Definition empty_DB : DB := mkDB None None None None None None None.

(** One access to the store. *)
Inductive access :=
  | Get (key : string)
  | Put (key : string)
  | Delete (key : string).

Definition is_write (a : access) : bool :=
  match a with
  | Get _ => false
  | _ => true
  end.

(** A key of the store with the shape of its value. *)
Record cell (A : Type) := Cell {
  cell_key : string;
  cell_read : DB -> option A;
  cell_write : option A -> DB -> DB
}.
Arguments Cell {A}.
Arguments cell_key {A}.
Arguments cell_read {A}.
Arguments cell_write {A}.

Definition SESSION_ACTIVE : cell string :=
  Cell "SESSION_ACTIVE" db_SESSION_ACTIVE
    (fun v db => mkDB v (db_QUEUE db) (db_CURRENT_SONG db) (db_SESSION_PARTICIPANTS db)
                   (db_ELIGIBLE_VOTERS db) (db_VOTED_USERS db) (db_HISTORY db)).

Definition QUEUE : cell (list Track) :=
  Cell "QUEUE" db_QUEUE
    (fun v db => mkDB (db_SESSION_ACTIVE db) v (db_CURRENT_SONG db) (db_SESSION_PARTICIPANTS db)
                   (db_ELIGIBLE_VOTERS db) (db_VOTED_USERS db) (db_HISTORY db)).

Definition CURRENT_SONG : cell SongText :=
  Cell "CURRENT_SONG" db_CURRENT_SONG
    (fun v db => mkDB (db_SESSION_ACTIVE db) (db_QUEUE db) v (db_SESSION_PARTICIPANTS db)
                   (db_ELIGIBLE_VOTERS db) (db_VOTED_USERS db) (db_HISTORY db)).

Definition SESSION_PARTICIPANTS : cell (list UserId) :=
  Cell "SESSION_PARTICIPANTS" db_SESSION_PARTICIPANTS
    (fun v db => mkDB (db_SESSION_ACTIVE db) (db_QUEUE db) (db_CURRENT_SONG db) v
                   (db_ELIGIBLE_VOTERS db) (db_VOTED_USERS db) (db_HISTORY db)).

Definition ELIGIBLE_VOTERS : cell (list UserId) :=
  Cell "ELIGIBLE_VOTERS" db_ELIGIBLE_VOTERS
    (fun v db => mkDB (db_SESSION_ACTIVE db) (db_QUEUE db) (db_CURRENT_SONG db)
                   (db_SESSION_PARTICIPANTS db) v (db_VOTED_USERS db) (db_HISTORY db)).

Definition VOTED_USERS : cell VotedUsers :=
  Cell "VOTED_USERS" db_VOTED_USERS
    (fun v db => mkDB (db_SESSION_ACTIVE db) (db_QUEUE db) (db_CURRENT_SONG db)
                   (db_SESSION_PARTICIPANTS db) (db_ELIGIBLE_VOTERS db) v (db_HISTORY db)).

Definition HISTORY : cell History :=
  Cell "HISTORY" db_HISTORY
    (fun v db => mkDB (db_SESSION_ACTIVE db) (db_QUEUE db) (db_CURRENT_SONG db)
                   (db_SESSION_PARTICIPANTS db) (db_ELIGIBLE_VOTERS db) (db_VOTED_USERS db) v).

(** ** Handlers as store computations *)

(** The result, the store afterwards, and the accesses issued. *)
Definition M (A : Type) : Type := DB -> A * DB * list access.

Global Instance M_ret : MRet M := fun A a db => (a, db, []).

Global Instance M_bind : MBind M := fun A B f m db =>
  let '(a, db1, l1) := m db in
  let '(b, db2, l2) := f a db1 in
  (b, db2, l1 ++ l2).

(** [await env.DB.get(key)] *)
Definition DB_get {A} (c : cell A) : M (option A) :=
  fun db => (cell_read c db, db, [Get (cell_key c)]).

(** [await env.DB.put(key, value)] *)
Definition DB_put {A} (c : cell A) (v : A) : M unit :=
  fun db => (tt, cell_write c (Some v) db, [Put (cell_key c)]).

(** [await env.DB.delete(key)] *)
Definition DB_delete {A} (c : cell A) : M unit :=
  fun db => (tt, cell_write c None db, [Delete (cell_key c)]).

Definition result {A} (r : A * DB * list access) : A := r.1.1.
Definition store {A} (r : A * DB * list access) : DB := r.1.2.
Definition accesses {A} (r : A * DB * list access) : list access := r.2.
Definition writes {A} (r : A * DB * list access) : list access :=
  filter (fun a => is_write a = true) (accesses r).

(** ** The environment and the request *)

(** An item of the answer of the YouTube playlist API, as
    [getPlaylistItems] reads it (server.js 73-77). *)
Record PlaylistItem := mkPlaylistItem {
  snippet_title : string;
  snippet_videoId : string;
  thumbnail_high : option string;
  thumbnail_default : option string
}.

(** [env]: the manager's id, and what the YouTube API (reached with
    [env.YOUTUBE_API_KEY]) answers: the title of a video
    ([data.items?.[0]?.snippet?.title]) and the items of a playlist
    ([data.items]). *)
Record Env := mkEnv {
  MANAGER_USER_ID : UserId;
  youtube_video_title : string -> option string;
  youtube_playlist_items : string -> option (list PlaylistItem)
}.

(** [a || b] on optional strings: the empty string is falsy. *)
Definition or_else (a : option string) (b : option string) : option string :=
  match a with
  | Some s => if bool_decide (s = "") then b else Some s
  | None => b
  end.

(** [getVideoTitle] (server.js 51-56). *)
Definition getVideoTitle (env : Env) (videoId : string) : string :=
  default "Unknown Song" (or_else (youtube_video_title env videoId) None).

(** [getPlaylistItems] (server.js 66-78). *)
Definition getPlaylistItems (env : Env) (playlistId : string) : list Track :=
  match youtube_playlist_items env playlistId with
  | None => []
  | Some items =>
      map (fun item =>
             mkTrack (snippet_title item) (snippet_videoId item)
               (or_else (thumbnail_high item) (thumbnail_default item)))
          items
  end.

Inductive InteractionType :=
  | PING
  | APPLICATION_COMMAND
  | MESSAGE_COMPONENT
  | OTHER_INTERACTION.

(** [interaction.data.options], read by option name; the shapes are those
    declared in [src/commands.js] (a string for [playlist_url] and [url], a
    user for [user]). *)
Record Options := mkOptions {
  option_playlist_url : option string;
  option_url : option string;
  option_user : option UserId
}.

Definition no_options : Options := mkOptions None None None.

(** A verified interaction from a guild member. *)
Record Interaction := mkInteraction {
  type : InteractionType;
  member_user_id : UserId;
  data_name : string;
  data_options : Options;
  data_custom_id : string
}.

(** Command names (src/commands.js). *)
Definition SESSION_START_COMMAND : string := "session-start".
Definition SESSION_END_COMMAND : string := "session-end".
Definition VOTE_START_COMMAND : string := "vote-start".
Definition VOTE_NEXT_COMMAND : string := "vote-next".
Definition VOTE_END_COMMAND : string := "vote-end".
Definition ENTER_COMMAND : string := "enter".
Definition EXIT_COMMAND : string := "exit".
Definition KICK_COMMAND : string := "kick".
Definition PARTICIPANTS_COMMAND : string := "participants".

(** ** Responses *)

(** A line of the final summary (server.js 496-499). *)
Record SummaryLine := mkSummaryLine {
  line_title : string;
  line_average : Q;
  line_voterCount : Z
}.

(** The [content] of a channel message, one constructor per message of the
    source (the line of its text is given); the names follow the error
    kinds of the specification. *)
Inductive Content :=
  | Forbidden                                   (* 125 *)
  | AlreadyActive                               (* 138 *)
  | InvalidReference                            (* 160 *)
  | EmptyOrInaccessible                         (* 173 *)
  | SessionStarted (loaded : option nat)        (* 145, 180 *)
  | NotActive                                   (* 206, 298, 518, 556, 613, 672 *)
  | VoteInProgress                              (* 217, 310 *)
  | UnresolvableUrl                             (* 232 *)
  | NowPlaying (remaining : option nat) (embed_title embed_url embed_image : string)
      (custom_ids : list string)                (* 257-286, 358-389 *)
  | QueueEmpty                                  (* 325 *)
  | NoCurrentSong                               (* 400 *)
  | VoteEnded (song_title : string) (totalPoints voterCount participantCount : Z)
      (average : Q) (high_approval : bool)      (* 439-447 *)
  | SessionNotActive                            (* 463 *)
  | SessionVoteInProgress                       (* 474 *)
  | SessionEnded (summary : list SummaryLine)   (* 501-507 *)
  | AlreadyJoined                               (* 532 *)
  | Joined (participants : nat)                 (* 544 *)
  | NotJoined                                   (* 570 *)
  | Left                                        (* 601 *)
  | TargetNotJoined                             (* 629 *)
  | Kicked                                      (* 660 *)
  | NoParticipants                              (* 685 *)
  | ParticipantList (participants : list UserId) (* 697 *)
  | SessionClosed                               (* 724 *)
  | VoteClosed                                  (* 738 *)
  | NotAParticipant                             (* 755 *)
  | NotEligible                                 (* 769 *)
  | VoteRetracted                               (* 784 *)
  | VoteCast (points : Z).                      (* 788 *)

Inductive Response :=
  | BadSignature                                 (* status 401, line 97 *)
  | PONG                                         (* line 102 *)
  | ChannelMessage (content : Content) (ephemeral : bool)
  | BadRequest                                   (* status 400, lines 704, 806 *)
  | Uncaught.                                    (* a TypeError leaves the handler *)

(** A channel message flagged [EPHEMERAL]. *)
Definition reject (c : Content) : M Response := mret (ChannelMessage c true).

(** A channel message without flags. *)
Definition announce (c : Content) : M Response := mret (ChannelMessage c false).

(** Truthiness of the text read under [CURRENT_SONG]. *)
Definition truthy (t : option SongText) : bool :=
  match t with
  | Some (SongJSON _) => true
  | _ => false
  end.

(** [str ? JSON.parse(str) : fallback] for a key that only holds JSON. *)
Definition parse_or {A} (fallback : A) (str : option A) : A := default fallback str.

(** [array.includes(x)] *)
Definition includes (l : list UserId) (x : UserId) : bool := bool_decide (x ∈ l).

(** [array.filter(id => id !== x)] *)
Definition without (x : UserId) (l : list UserId) : list UserId :=
  filter (fun id => id <> x) l.

(** [Array.prototype.sort(compare)]: a stable sort; [x] goes before the
    first [y] of the sorted rest with [compare x y <= 0]. *)
Fixpoint sort_insert {A} (compare : A -> A -> Q) (x : A) (l : list A) : list A :=
  match l with
  | [] => [x]
  | y :: l' =>
      if Qle_bool (compare x y) 0 then x :: y :: l'
      else y :: sort_insert compare x l'
  end.

Definition Array_sort {A} (compare : A -> A -> Q) (l : list A) : list A :=
  foldr (sort_insert compare) [] l.

(** [Object.values(votedUsers)] and [Object.keys(votedUsers)] *)
Definition Object_values (votedUsers : VotedUsers) : list Z := (map_to_list votedUsers).*2.
Definition Object_keys (votedUsers : VotedUsers) : list UserId := (map_to_list votedUsers).*1.

(** [count > 0 ? points / count : 0] (server.js 417, 490, 491, 497) *)
Definition average_of (points count : Z) : Q :=
  if 0 <? count then (inject_Z points / inject_Z count)%Q else 0%Q.

(** [average > 1] *)
Definition above_one (average : Q) : bool := negb (Qle_bool average 1).

(** ** The handlers of the slash commands *)

(** session-start (server.js 132-198) *)
Definition session_start (env : Env) (interaction : Interaction) : M Response :=
  session_active ← DB_get SESSION_ACTIVE;
  if bool_decide (session_active = Some "true") then reject AlreadyActive
  else
    let execution (initialQueue : list Track) (loaded : option nat) : M Response :=
      DB_put SESSION_ACTIVE "true";;
      DB_delete CURRENT_SONG;;
      DB_delete VOTED_USERS;;
      DB_delete ELIGIBLE_VOTERS;;
      DB_delete HISTORY;;
      DB_put SESSION_PARTICIPANTS [];;
      DB_put QUEUE initialQueue;;
      announce (SessionStarted loaded) in
    match option_playlist_url (data_options interaction) with
    | Some value =>
        match getPlaylistId value with
        | None => reject InvalidReference
        | Some pid =>
            let items := getPlaylistItems env pid in
            if bool_decide (length items = 0%nat) then reject EmptyOrInaccessible
            else execution items (Some (length items))
        end
    | None => execution [] None
    end.

(** The two vote buttons (server.js 268-286, 371-389). *)
Definition vote_buttons (vidId : string) : list string :=
  ["vote_1_" +:+ vidId; "vote_2_" +:+ vidId].

Definition default_image (vidId : string) : string :=
  "https://img.youtube.com/vi/" +:+ vidId +:+ "/mqdefault.jpg".

(** vote-start (server.js 200-289) *)
Definition vote_start (env : Env) (interaction : Interaction) : M Response :=
  session_active ← DB_get SESSION_ACTIVE;
  if bool_decide (session_active = Some "false") then reject NotActive
  else
    songDataStr ← DB_get CURRENT_SONG;
    if truthy songDataStr then reject VoteInProgress
    else
      match option_url (data_options interaction) with
      | None => mret Uncaught
      | Some url =>
          match getVideoId url with
          | None => reject UnresolvableUrl
          | Some vidId =>
              let title := getVideoTitle env vidId in
              participantsStr ← DB_get SESSION_PARTICIPANTS;
              let participants := parse_or [] participantsStr in
              DB_put CURRENT_SONG (SongJSON (mkSong title vidId 0));;
              DB_put VOTED_USERS ∅;;
              DB_put ELIGIBLE_VOTERS participants;;
              announce (NowPlaying None title url (default_image vidId) (vote_buttons vidId))
          end
      end.

(** vote-next (server.js 291-392) *)
Definition vote_next : M Response :=
  session_active ← DB_get SESSION_ACTIVE;
  if negb (bool_decide (session_active = Some "true")) then reject NotActive
  else
    currentSong ← DB_get CURRENT_SONG;
    if truthy currentSong then reject VoteInProgress
    else
      queueStr ← DB_get QUEUE;
      let queue := parse_or [] queueStr in
      match queue with
      | [] => reject QueueEmpty
      | nextSong :: queue =>
          let remaining := length queue in
          DB_put QUEUE queue;;
          participantsStr ← DB_get SESSION_PARTICIPANTS;
          let participants := parse_or [] participantsStr in
          DB_put CURRENT_SONG
            (SongJSON (mkSong (track_title nextSong) (track_id nextSong) 0));;
          DB_put VOTED_USERS ∅;;
          DB_put ELIGIBLE_VOTERS participants;;
          announce
            (NowPlaying (Some remaining) (track_title nextSong)
               ("https://www.youtube.com/watch?v=" +:+ track_id nextSong)
               (default (default_image (track_id nextSong))
                  (or_else (track_thumbnail nextSong) None))
               (vote_buttons (track_id nextSong)))
      end.

(** The three [+=] of server.js 423-425. *)
Definition add_to_entry (points voters participants : Z) (e : Entry) : Entry :=
  mkEntry (title e) (totalPoints e + points) (voterCount e + voters)
    (participantCount e + participants).

(** "Save to History" (server.js 422-433).  When [history[id]] is a
    property inherited from [Object.prototype] the test of line 422
    succeeds, the three additions are made on that inherited value, and the
    object [history] itself is left as it was. *)
Definition save_to_history (songData : Song) (totalPoints voterCount participantCount : Z)
    (history : History) : History :=
  match JSObject.get_property history (song_id songData) with
  | JSObject.Own _ =>
      JSObject.update (song_id songData)
        (add_to_entry totalPoints voterCount participantCount) history
  | JSObject.Inherited => history
  | JSObject.Undefined =>
      JSObject.create (song_id songData)
        (mkEntry (song_title songData) totalPoints voterCount participantCount) history
  end.

(** vote-end (server.js 394-455) *)
Definition vote_end : M Response :=
  songDataStr ← DB_get CURRENT_SONG;
  match songDataStr with
  | Some (SongJSON songData) =>
      votedUsersStr ← DB_get VOTED_USERS;
      let votedUsers := parse_or ∅ votedUsersStr in
      eligibleVotersStr ← DB_get ELIGIBLE_VOTERS;
      let eligibleVoters := parse_or [] eligibleVotersStr in
      let totalPoints := foldl (fun sum points => sum + points) 0 (Object_values votedUsers) in
      let voterCount := Z.of_nat (length (Object_keys votedUsers)) in
      let participantCount := Z.of_nat (length eligibleVoters) in
      let average := average_of totalPoints participantCount in
      historyStr ← DB_get HISTORY;
      let history := parse_or [] historyStr in
      DB_put HISTORY (save_to_history songData totalPoints voterCount participantCount history);;
      DB_put CURRENT_SONG EmptyText;;
      announce
        (VoteEnded (song_title songData) totalPoints voterCount participantCount average
           (above_one average))
  | _ => reject NoCurrentSong
  end.

(** The comparator of the final summary (server.js 489-493). *)
Definition by_average (a b : Entry) : Q :=
  let avgA := average_of (totalPoints a) (participantCount a) in
  let avgB := average_of (totalPoints b) (participantCount b) in
  (avgB - avgA)%Q.

Definition summary_line (song : Entry) : SummaryLine :=
  mkSummaryLine (title song) (average_of (totalPoints song) (participantCount song))
    (voterCount song).

(** session-end (server.js 457-510) *)
Definition session_end : M Response :=
  session_active ← DB_get SESSION_ACTIVE;
  if bool_decide (session_active = Some "false") then reject SessionNotActive
  else
    songDataStr ← DB_get CURRENT_SONG;
    if truthy songDataStr then reject SessionVoteInProgress
    else
      DB_put SESSION_ACTIVE "false";;
      historyStr ← DB_get HISTORY;
      let history := parse_or [] historyStr in
      let sortedSongs := Array_sort by_average (JSObject.values history) in
      announce (SessionEnded (map summary_line sortedSongs)).

(** enter (server.js 512-548) *)
Definition enter (interaction : Interaction) : M Response :=
  session_active ← DB_get SESSION_ACTIVE;
  if negb (bool_decide (session_active = Some "true")) then reject NotActive
  else
    let userId := member_user_id interaction in
    participantsStr ← DB_get SESSION_PARTICIPANTS;
    let participants := parse_or [] participantsStr in
    if includes participants userId then reject AlreadyJoined
    else
      let participants := participants ++ [userId] in
      DB_put SESSION_PARTICIPANTS participants;;
      reject (Joined (length participants)).

(** The removal shared by exit and kick (server.js 576-596, 635-655):
    the user leaves the participants, the eligible voters when that key
    holds a text, and the voted users when the entry is truthy. *)
Definition remove_user (userId : UserId) (participants : list UserId) : M unit :=
  DB_put SESSION_PARTICIPANTS (without userId participants);;
  eligibleVotersStr ← DB_get ELIGIBLE_VOTERS;
  match eligibleVotersStr with
  | Some eligibleVoters => DB_put ELIGIBLE_VOTERS (without userId eligibleVoters)
  | None => mret tt
  end;;
  votedUsersStr ← DB_get VOTED_USERS;
  match votedUsersStr with
  | Some votedUsers =>
      match votedUsers !! userId with
      | Some points =>
          if bool_decide (points <> 0) then DB_put VOTED_USERS (delete userId votedUsers)
          else mret tt
      | None => mret tt
      end
  | None => mret tt
  end.

(** exit (server.js 550-605) *)
Definition exit (interaction : Interaction) : M Response :=
  session_active ← DB_get SESSION_ACTIVE;
  if negb (bool_decide (session_active = Some "true")) then reject NotActive
  else
    let userId := member_user_id interaction in
    participantsStr ← DB_get SESSION_PARTICIPANTS;
    let participants := parse_or [] participantsStr in
    if negb (includes participants userId) then reject NotJoined
    else
      remove_user userId participants;;
      reject Left.

(** kick (server.js 607-664) *)
Definition kick (interaction : Interaction) : M Response :=
  session_active ← DB_get SESSION_ACTIVE;
  if negb (bool_decide (session_active = Some "true")) then reject NotActive
  else
    match option_user (data_options interaction) with
    | None => mret Uncaught
    | Some targetUserId =>
        participantsStr ← DB_get SESSION_PARTICIPANTS;
        let participants := parse_or [] participantsStr in
        if negb (includes participants targetUserId) then reject TargetNotJoined
        else
          remove_user targetUserId participants;;
          reject Kicked
    end.

(** participants (server.js 666-701) *)
Definition participants_list : M Response :=
  session_active ← DB_get SESSION_ACTIVE;
  if negb (bool_decide (session_active = Some "true")) then reject NotActive
  else
    participantsStr ← DB_get SESSION_PARTICIPANTS;
    let participants := parse_or [] participantsStr in
    if bool_decide (length participants = 0%nat) then reject NoParticipants
    else reject (ParticipantList participants).

(** ** The vote button (server.js 718-802) *)

Definition vote (userId : UserId) (points : Z) (buttonVidId : string) : M Response :=
  active ← DB_get SESSION_ACTIVE;
  if negb (bool_decide (active = Some "true")) then reject SessionClosed
  else
    currentSongStr ← DB_get CURRENT_SONG;
    let currentSong :=
      match currentSongStr with
      | Some (SongJSON song) => Some song
      | _ => None
      end in
    if negb (bool_decide (song_id <$> currentSong = Some buttonVidId)) then reject VoteClosed
    else
      participantsStr ← DB_get SESSION_PARTICIPANTS;
      let participants := parse_or [] participantsStr in
      if negb (includes participants userId) then reject NotAParticipant
      else
        eligibleVotersStr ← DB_get ELIGIBLE_VOTERS;
        let eligibleVoters := parse_or [] eligibleVotersStr in
        if negb (includes eligibleVoters userId) then reject NotEligible
        else
          votedUsersStr ← DB_get VOTED_USERS;
          let votedUsers := parse_or ∅ votedUsersStr in
          if bool_decide (votedUsers !! userId = Some points) then
            DB_put VOTED_USERS (delete userId votedUsers);;
            reject VoteRetracted
          else
            DB_put VOTED_USERS (<[userId := points]> votedUsers);;
            reject (VoteCast points).

(** ** The route [router.post('/')] (server.js 91-807) *)

Definition managerOnlyCommands : list string :=
  [ SESSION_START_COMMAND; SESSION_END_COMMAND; VOTE_START_COMMAND; VOTE_END_COMMAND;
    VOTE_NEXT_COMMAND; KICK_COMMAND; PARTICIPANTS_COMMAND ].

(** [isManager] (server.js 81-83) *)
Definition isManager (interaction : Interaction) (env : Env) : bool :=
  bool_decide (member_user_id interaction = MANAGER_USER_ID env).

(** The [switch] on the command name (server.js 131-705). *)
Definition command (env : Env) (commandName : string) (interaction : Interaction) : M Response :=
  if bool_decide (commandName = SESSION_START_COMMAND) then session_start env interaction
  else if bool_decide (commandName = VOTE_START_COMMAND) then vote_start env interaction
  else if bool_decide (commandName = VOTE_NEXT_COMMAND) then vote_next
  else if bool_decide (commandName = VOTE_END_COMMAND) then vote_end
  else if bool_decide (commandName = SESSION_END_COMMAND) then session_end
  else if bool_decide (commandName = ENTER_COMMAND) then enter interaction
  else if bool_decide (commandName = EXIT_COMMAND) then exit interaction
  else if bool_decide (commandName = KICK_COMMAND) then kick interaction
  else if bool_decide (commandName = PARTICIPANTS_COMMAND) then participants_list
  else mret BadRequest.

(** [request] is what [verifyDiscordRequest] gives: [None] when the
    signature is not valid, the interaction otherwise. *)
Definition post (env : Env) (request : option Interaction) : M Response :=
  match request with
  | None => mret BadSignature
  | Some interaction =>
      match type interaction with
      | PING => mret PONG
      | APPLICATION_COMMAND =>
          let commandName := Text.toLowerCase (data_name interaction) in
          if bool_decide (commandName ∈ managerOnlyCommands) && negb (isManager interaction env)
          then reject Forbidden
          else command env commandName interaction
      | MESSAGE_COMPONENT =>
          match voteMatch (data_custom_id interaction) with
          | Some (points, buttonVidId) => vote (member_user_id interaction) points buttonVidId
          | None => mret BadRequest
          end
      | OTHER_INTERACTION => mret BadRequest
      end
  end.

(** The store after a sequence of requests, each handled to completion. *)
Definition serve (env : Env) (db : DB) (requests : list (option Interaction)) : DB :=
  foldl (fun db request => store (post env request db)) db requests.

(** Requests used in the statements below. *)
Definition slash (user : UserId) (name : string) (options : Options) : option Interaction :=
  Some (mkInteraction APPLICATION_COMMAND user name options "").

Definition button (user : UserId) (custom_id : string) : option Interaction :=
  Some (mkInteraction MESSAGE_COMPONENT user "" no_options custom_id).

Definition with_url (url : string) : Options := mkOptions None (Some url) None.
Definition with_user (target : UserId) : Options := mkOptions None None (Some target).

(** ** Vocabulary of the specification *)

(** [CurrentSong] is set: the text under [CURRENT_SONG] is truthy. *)
Definition current_song (db : DB) : option Song :=
  match db_CURRENT_SONG db with
  | Some (SongJSON song) => Some song
  | _ => None
  end.

(** The collections as the handlers read them (an absent key reads as the
    empty collection). *)
Definition participants (db : DB) : list UserId := parse_or [] (db_SESSION_PARTICIPANTS db).
Definition eligible_voters (db : DB) : list UserId := parse_or [] (db_ELIGIBLE_VOTERS db).
Definition voted_users (db : DB) : VotedUsers := parse_or ∅ (db_VOTED_USERS db).
Definition history (db : DB) : History := parse_or [] (db_HISTORY db).
Definition queue (db : DB) : list Track := parse_or [] (db_QUEUE db).

(** The session flag is true. *)
Definition session_active (db : DB) : Prop := db_SESSION_ACTIVE db = Some "true".

(** The per-track average of the final summary. *)
Definition entry_average (e : Entry) : Q := average_of (totalPoints e) (participantCount e).

(** The state machine of the specification (section 4): [Closed], [Open],
    and [Open] with a vote in progress. *)
Inductive State :=
  | Closed
  | Open
  | OpenVoting.

(** The transition a response stands for.  A rejection (and any response
    that is not a channel message) leaves the state; a successful operation
    moves along the edge of the state machine it belongs to, and is not a
    step of the machine ([None]) from any other state. *)
Definition transition (s : State) (r : Response) : option State :=
  match r with
  | ChannelMessage c _ =>
      match c, s with
      | SessionStarted _, Closed => Some Open
      | SessionStarted _, _ => None
      | NowPlaying _ _ _ _ _, Open => Some OpenVoting
      | NowPlaying _ _ _ _ _, _ => None
      | VoteEnded _ _ _ _ _ _, OpenVoting => Some Open
      | VoteEnded _ _ _ _ _ _, _ => None
      | SessionEnded _, Open => Some Closed
      | SessionEnded _, _ => None
      | (Joined _ | Left | Kicked | NoParticipants | ParticipantList _), Closed => None
      | (VoteRetracted | VoteCast _), (Closed | Open) => None
      | _, _ => Some s
      end
  | _ => Some s
  end.

(** Serving a sequence of requests from state [s] and store [db] while
    following the state machine; [None] as soon as a response is not a step
    of the machine. *)
Fixpoint follow (env : Env) (s : State) (db : DB) (requests : list (option Interaction))
    : option (State * DB) :=
  match requests with
  | [] => Some (s, db)
  | request :: requests' =>
      let r := post env request db in
      match transition s (result r) with
      | Some s' => follow env s' (store r) requests'
      | None => None
      end
  end.

(** Invariant I1 as the specification states it. *)
Definition I1 (s : State) (db : DB) : Prop :=
  (is_Some (current_song db) <-> s = OpenVoting)
  /\ (is_Some (db_ELIGIBLE_VOTERS db) <-> is_Some (current_song db))
  /\ (is_Some (db_VOTED_USERS db) <-> is_Some (current_song db)).

(** What holds of it. *)
Definition I1_kept (s : State) (db : DB) : Prop :=
  (is_Some (current_song db) <-> s = OpenVoting)
  /\ (is_Some (current_song db) ->
      is_Some (db_ELIGIBLE_VOTERS db) /\ is_Some (db_VOTED_USERS db)).

(** Every stored score is 1 or 2. *)
Definition scores_1_or_2 (db : DB) : Prop :=
  forall (u : UserId) (p : Z), voted_users db !! u = Some p -> p = 1 \/ p = 2.

(** The two commands that start a track. *)
Inductive TrackStart :=
  | StartVoteOnUrl (interaction : Interaction)
  | AdvanceQueue.

Definition start_track (env : Env) (t : TrackStart) : M Response :=
  match t with
  | StartVoteOnUrl interaction => vote_start env interaction
  | AdvanceQueue => vote_next
  end.

Definition is_NowPlaying (r : Response) : bool :=
  match r with
  | ChannelMessage (NowPlaying _ _ _ _ _) false => true
  | _ => false
  end.

(** ** Concrete requests and stores used as instances *)

Definition manager : UserId := 100%N.
Definition alice : UserId := 201%N.
Definition bob : UserId := 202%N.

(** An environment whose YouTube API knows no video and no playlist. *)
Definition test_env : Env := mkEnv manager (fun _ => None) (fun _ => None).

Definition track_x : string := "dQw4w9WgXcQ".
Definition url_x : string := "https://youtu.be/dQw4w9WgXcQ".
Definition url_y : string := "https://www.youtube.com/watch?v=9bZkp7q19f0".
Definition url_constructor : string := "https://youtu.be/constructor".

(** A session of two participants with a vote open on [track_x]. *)
Definition voting_requests : list (option Interaction) :=
  [ slash manager "session-start" no_options;
    slash alice "enter" no_options;
    slash bob "enter" no_options;
    slash manager "vote-start" (with_url url_x) ].

Definition voting_db : DB := serve test_env empty_DB voting_requests.

(** A closed vote: the same, then vote-end. *)
Definition ended_requests : list (option Interaction) :=
  voting_requests ++ [ slash manager "vote-end" no_options ].

(** An open session without queue and without participants. *)
Definition open_db : DB :=
  serve test_env empty_DB [ slash manager "session-start" no_options ].

(** An open session that only alice has joined. *)
Definition alice_db : DB :=
  serve test_env empty_DB
    [ slash manager "session-start" no_options; slash alice "enter" no_options ].

(** The interactions of the manager starting a vote and of bob entering. *)
Definition start_x : Interaction :=
  mkInteraction APPLICATION_COMMAND manager "vote-start" (with_url url_x) "".
Definition start_y : Interaction :=
  mkInteraction APPLICATION_COMMAND manager "vote-start" (with_url url_y) "".
Definition bob_enters : Interaction :=
  mkInteraction APPLICATION_COMMAND bob "enter" no_options "".
Definition alice_starts : Interaction :=
  mkInteraction APPLICATION_COMMAND alice "vote-start" (with_url url_x) "".

(** The vote on [track_x] with 2 points of alice and 1 point of bob. *)
Definition voted_requests : list (option Interaction) :=
  voting_requests ++ [ button alice "vote_2_dQw4w9WgXcQ"; button bob "vote_1_dQw4w9WgXcQ" ].

(** A history of three tracks with averages 2, 0 and 3/2. *)
Definition three_tracks : History :=
  [ ("aaaaaaaaaaa", mkEntry "A" 4 2 2);
    ("bbbbbbbbbbb", mkEntry "B" 0 0 0);
    ("ccccccccccc", mkEntry "C" 3 2 2) ].

Definition summary_db : DB :=
  mkDB (Some "true") (Some []) (Some EmptyText) (Some [alice; bob]) (Some [alice; bob])
    (Some ∅) (Some three_tracks).

(** ** Relations used in the proofs *)

(** Equality of rationals is decidable. *)
Global Instance Qeq_decision (x y : Q) : Decision (x == y)%Q := Qeq_dec x y.

(** [a] may stand before [b] in a list sorted by descending [key]. *)
Definition descending {A} (key : A -> Q) (a b : A) : Prop := (key b <= key a)%Q.

(** The request is a press on a message component. *)
Definition is_component (request : option Interaction) : bool :=
  match request with
  | Some interaction =>
      match type interaction with
      | MESSAGE_COMPONENT => true
      | _ => false
      end
  | None => false
  end.

(** What a request can do to [VOTED_USERS]: nothing, empty it, remove a
    user, or, for a component only, store 1 or 2 for a user. *)
Inductive voted_effect (component : bool) (before : VotedUsers) : VotedUsers -> Prop :=
  | voted_same : voted_effect component before before
  | voted_reset : voted_effect component before ∅
  | voted_delete (u : UserId) : voted_effect component before (delete u before)
  | voted_insert (u : UserId) (p : Z) :
      component = true -> p = 1 \/ p = 2 ->
      voted_effect component before (<[u := p]> before).

(** What a request does to the keys of I1, read off its response. *)
Definition song_effect (db db' : DB) (r : Response) : Prop :=
  match r with
  | ChannelMessage (SessionStarted _) _ => current_song db' = None
  | ChannelMessage (VoteEnded _ _ _ _ _ _) _ =>
      current_song db' = None
      /\ db_ELIGIBLE_VOTERS db' = db_ELIGIBLE_VOTERS db
      /\ db_VOTED_USERS db' = db_VOTED_USERS db
  | ChannelMessage (NowPlaying _ _ _ _ _) _ =>
      is_Some (current_song db')
      /\ is_Some (db_ELIGIBLE_VOTERS db') /\ is_Some (db_VOTED_USERS db')
  | _ =>
      current_song db' = current_song db
      /\ (is_Some (db_ELIGIBLE_VOTERS db) -> is_Some (db_ELIGIBLE_VOTERS db'))
      /\ (is_Some (db_VOTED_USERS db) -> is_Some (db_VOTED_USERS db'))
  end.

(** ** Definitions for the further properties *)

(** The responses that refuse a request. *)
Definition is_rejection (c : Content) : bool :=
  match c with
  | Forbidden | AlreadyActive | InvalidReference | EmptyOrInaccessible | NotActive
  | VoteInProgress | UnresolvableUrl | QueueEmpty | NoCurrentSong | SessionNotActive
  | SessionVoteInProgress | AlreadyJoined | NotJoined | TargetNotJoined
  | SessionClosed | VoteClosed | NotAParticipant | NotEligible => true
  | _ => false
  end.

(** A response that changes nothing: a refusal, the list of participants,
    or any response that is not a channel message. *)
Definition leaves_store (r : Response) : bool :=
  match r with
  | ChannelMessage c _ =>
      is_rejection c
      || match c with
         | NoParticipants | ParticipantList _ => true
         | _ => false
         end
  | _ => true
  end.

(** What a request can do to the participants [P], the eligible voters
    [E] and the votes [V], as the handlers read them. *)
Inductive roster_effect (P E : list UserId) (V : VotedUsers)
    : list UserId -> list UserId -> VotedUsers -> Prop :=
  | roster_same : roster_effect P E V P E V
  | roster_session_start : roster_effect P E V [] [] ∅
  | roster_track_start : roster_effect P E V P P ∅
  | roster_enter (u : UserId) : u ∉ P -> roster_effect P E V (P ++ [u]) E V
  | roster_leave (u : UserId) (V' : VotedUsers) :
      V' = delete u V \/ (V' = V /\ (V !! u = None \/ V !! u = Some 0)) ->
      roster_effect P E V (without u P) (without u E) V'
  | roster_vote (u : UserId) (V' : VotedUsers) :
      u ∈ E -> (V' = delete u V \/ exists p, V' = <[u := p]> V) ->
      roster_effect P E V P E V'.

Definition rosters_change (db db' : DB) : Prop :=
  roster_effect (participants db) (eligible_voters db) (voted_users db)
    (participants db') (eligible_voters db') (voted_users db').

(** No user is listed twice, an eligible voter is a participant, and a
    user with a vote is an eligible voter. *)
Definition consistent_rosters (P E : list UserId) (V : VotedUsers) : Prop :=
  NoDup P
  /\ NoDup E
  /\ (forall u, u ∈ E -> u ∈ P)
  /\ (forall u, is_Some (V !! u) -> u ∈ E).




(** What is true of a store [db'] from which [u] was removed. *)
Definition removed (u : UserId) (db db' : DB) : Prop :=
  (u ∉ participants db')
  /\ (u ∉ eligible_voters db')
  /\ voted_users db' !! u = None
  /\ (forall x, x <> u ->
      (x ∈ participants db' <-> x ∈ participants db)
      /\ (x ∈ eligible_voters db' <-> x ∈ eligible_voters db)
      /\ voted_users db' !! x = voted_users db !! x)
  /\ db_SESSION_ACTIVE db' = db_SESSION_ACTIVE db
  /\ db_QUEUE db' = db_QUEUE db
  /\ db_CURRENT_SONG db' = db_CURRENT_SONG db
  /\ db_HISTORY db' = db_HISTORY db.

(** The announcement of vote-next for the track [t] with [n] tracks left
    (server.js 355-391). *)
Definition next_announcement (t : Track) (n : nat) : Response :=
  ChannelMessage
    (NowPlaying (Some n) (track_title t)
       ("https://www.youtube.com/watch?v=" +:+ track_id t)
       (default (default_image (track_id t)) (or_else (track_thumbnail t) None))
       (vote_buttons (track_id t)))
    false.

(** [n] rounds of vote-next followed by vote-end: the responses of the
    vote-next commands and the store at the end. *)
Fixpoint play (n : nat) (db : DB) : list Response * DB :=
  match n with
  | O => ([], db)
  | S n' =>
      let r := vote_next db in
      let played := play n' (store (vote_end (store r))) in
      (result r :: played.1, played.2)
  end.

(** The announcements of the tracks [ts] when [n] tracks follow them. *)
Fixpoint announcements (ts : list Track) (n : nat) : list Response :=
  match ts with
  | [] => []
  | t :: ts' => next_announcement t (length ts' + n) :: announcements ts' n
  end.

(** Every character of [s] satisfies [ok]. *)
Fixpoint all_chars (ok : ascii -> bool) (s : string) : bool :=
  match s with
  | EmptyString => true
  | String c s' => ok c && all_chars ok s'
  end.

(** The part of a URL before its query: no ? and no &. *)
Definition query_free (c : ascii) : bool :=
  negb (bool_decide (c = "?"%char) || bool_decide (c = "&"%char)).

Definition is_SessionStarted (r : Response) : bool :=
  match r with
  | ChannelMessage (SessionStarted _) _ => true
  | _ => false
  end.

(** The store of an ended session: the flag is the text "false" and no
    song is current. *)
Definition ended (db : DB) : Prop :=
  db_SESSION_ACTIVE db = Some "false" /\ current_song db = None.

(** The statistics of one vote or of an entry of the history: every voter
    gave 1 or 2 points and is one of the participants counted. *)
Definition bounded_statistics (points voters participants_ : Z) : Prop :=
  voters <= points <= 2 * voters /\ 0 <= voters <= participants_.

Definition bounded_entry (e : Entry) : Prop :=
  bounded_statistics (totalPoints e) (voterCount e) (participantCount e).

(** No id is listed twice, no id is a property name of [Object.prototype],
    and every entry is bounded. *)
Definition well_formed_history (h : History) : Prop :=
  NoDup h.*1
  /\ (forall k, k ∈ h.*1 -> k ∉ JSObject.Object_prototype_names)
  /\ Forall bounded_entry (JSObject.values h).

(** What a request can do to the history. *)
Inductive history_effect (db : DB) (h' : History) : Prop :=
  | history_same : h' = history db -> history_effect db h'
  | history_deleted : h' = [] -> history_effect db h'
  | history_saved (song : Song) :
      h' = save_to_history song
             (foldl Z.add 0 (Object_values (voted_users db)))
             (Z.of_nat (length (Object_keys (voted_users db))))
             (Z.of_nat (length (eligible_voters db)))
             (history db) ->
      history_effect db h'.

(** A line of the summary reports an average between 0 and 2 and a
    number of voters that is not negative. *)
Definition bounded_line (line : SummaryLine) : Prop :=
  (0 <= line_average line)%Q /\ (line_average line <= 2)%Q /\ 0 <= line_voterCount line.

(** Interactions and a store used as instances. *)
Definition alice_exits : Interaction :=
  mkInteraction APPLICATION_COMMAND alice "exit" no_options "".
Definition kick_alice : Interaction :=
  mkInteraction APPLICATION_COMMAND manager "kick" (with_user alice) "".

(** An open session of alice with a queue of three tracks. *)
Definition queued_db : DB :=
  mkDB (Some "true")
    (Some [mkTrack "A" "aaaaaaaaaaa" None; mkTrack "B" "bbbbbbbbbbb" None;
           mkTrack "C" "ccccccccccc" None])
    None (Some [alice]) None None None.

(** * Properties *)

(** ** The regular expressions on examples *)

Example getVideoId_short : getVideoId "https://youtu.be/dQw4w9WgXcQ" = Some "dQw4w9WgXcQ".
Proof. vm_compute. reflexivity. Qed.

Example getVideoId_last_marker :
  getVideoId "https://www.youtube.com/watch?v=dQw4w9WgXcQ&list=PL1&v=9bZkp7q19f0"
  = Some "9bZkp7q19f0".
Proof. vm_compute. reflexivity. Qed.

Example getVideoId_wrong_length : getVideoId "https://youtu.be/short" = None.
Proof. vm_compute. reflexivity. Qed.

Example getVideoId_constructor : getVideoId url_constructor = Some "constructor".
Proof. vm_compute. reflexivity. Qed.

Example getPlaylistId_first :
  getPlaylistId "https://www.youtube.com/playlist?list=PL123&si=x" = Some "PL123".
Proof. vm_compute. reflexivity. Qed.

Example voteMatch_second_button : voteMatch "vote_2_dQw4w9WgXcQ" = Some (2, "dQw4w9WgXcQ").
Proof. vm_compute. reflexivity. Qed.

Example voteMatch_third_button : voteMatch "vote_3_dQw4w9WgXcQ" = None.
Proof. vm_compute. reflexivity. Qed.

(** ** Running a handler *)

Ltac handler :=
  unfold session_start, vote_start, vote_next, vote_end, session_end, enter, exit, kick,
    participants_list, vote, remove_user, reject, announce, mbind, M_bind, mret, M_ret,
    DB_get, DB_put, DB_delete in *;
  cbn in *.

Ltac vocabulary :=
  unfold session_active, current_song, participants, eligible_voters, voted_users,
    history, queue, parse_or, includes in *.

(** Decide the tests of a handler from the hypotheses at hand. *)
Ltac tests :=
  repeat (cbn in *;
          first [ rewrite bool_decide_eq_true_2 by (first [ assumption | reflexivity | congruence ])
                | rewrite bool_decide_eq_false_2 by (first [ assumption | congruence ]) ]);
  cbn in *.

(** Split on the outermost test the goal is stuck on. *)
Ltac branch :=
  match goal with
  | |- context [if ?c then _ else _] => destruct c eqn:?
  | |- context [match ?x with _ => _ end] => is_var x; destruct x
  end;
  cbn in *.

(** Run a handler in the hypothesis [E : handler db = (r, db', l)],
    splitting on each test it meets. *)
Ltac run E :=
  repeat (cbn in E;
          match type of E with
          | context [if ?c then _ else _] => destruct c eqn:?
          | context [match ?x with _ => _ end] => is_var x; destruct x
          | context [match ?x with _ => _ end] =>
              let T := type of x in
              lazymatch T with
              | prod _ _ => fail
              | _ => destruct x eqn:?
              end
          end);
  cbn in E; simplify_eq.

(** ** The vote button, case by case *)

Section Vote.
Variables (u : UserId) (p : Z) (vid : string) (db : DB).

Lemma vote_session_closed :
  ~ session_active db ->
  vote u p vid db = (ChannelMessage SessionClosed true, db, [Get "SESSION_ACTIVE"]).
Proof.
  destruct db as [sa q cs sp ev vu h]. vocabulary. cbn. intros H.
  handler. vocabulary. tests. reflexivity.
Qed.

Lemma vote_closed :
  session_active db ->
  song_id <$> current_song db <> Some vid ->
  vote u p vid db
  = (ChannelMessage VoteClosed true, db, [Get "SESSION_ACTIVE"; Get "CURRENT_SONG"]).
Proof.
  destruct db as [sa q cs sp ev vu h]. vocabulary. cbn. intros -> H.
  handler. vocabulary. tests. reflexivity.
Qed.

Lemma vote_not_a_participant :
  session_active db ->
  song_id <$> current_song db = Some vid ->
  u ∉ participants db ->
  vote u p vid db
  = (ChannelMessage NotAParticipant true, db,
     [Get "SESSION_ACTIVE"; Get "CURRENT_SONG"; Get "SESSION_PARTICIPANTS"]).
Proof.
  destruct db as [sa q cs sp ev vu h]. vocabulary. cbn. intros -> Hs H.
  handler. vocabulary. tests. reflexivity.
Qed.

Lemma vote_not_eligible :
  session_active db ->
  song_id <$> current_song db = Some vid ->
  u ∈ participants db ->
  u ∉ eligible_voters db ->
  vote u p vid db
  = (ChannelMessage NotEligible true, db,
     [Get "SESSION_ACTIVE"; Get "CURRENT_SONG"; Get "SESSION_PARTICIPANTS";
      Get "ELIGIBLE_VOTERS"]).
Proof.
  destruct db as [sa q cs sp ev vu h]. vocabulary. cbn. intros -> Hs Hp H.
  handler. vocabulary. tests. reflexivity.
Qed.

Lemma vote_retracts :
  session_active db ->
  song_id <$> current_song db = Some vid ->
  u ∈ participants db ->
  u ∈ eligible_voters db ->
  voted_users db !! u = Some p ->
  vote u p vid db
  = (ChannelMessage VoteRetracted true,
     cell_write VOTED_USERS (Some (delete u (voted_users db))) db,
     [Get "SESSION_ACTIVE"; Get "CURRENT_SONG"; Get "SESSION_PARTICIPANTS";
      Get "ELIGIBLE_VOTERS"; Get "VOTED_USERS"; Put "VOTED_USERS"]).
Proof.
  destruct db as [sa q cs sp ev vu h]. vocabulary. cbn. intros -> Hs Hp He H.
  handler. vocabulary. tests. reflexivity.
Qed.

Lemma vote_casts :
  session_active db ->
  song_id <$> current_song db = Some vid ->
  u ∈ participants db ->
  u ∈ eligible_voters db ->
  voted_users db !! u <> Some p ->
  vote u p vid db
  = (ChannelMessage (VoteCast p) true,
     cell_write VOTED_USERS (Some (<[u := p]> (voted_users db))) db,
     [Get "SESSION_ACTIVE"; Get "CURRENT_SONG"; Get "SESSION_PARTICIPANTS";
      Get "ELIGIBLE_VOTERS"; Get "VOTED_USERS"; Put "VOTED_USERS"]).
Proof.
  destruct db as [sa q cs sp ev vu h]. vocabulary. cbn. intros -> Hs Hp He H.
  handler. vocabulary. tests. reflexivity.
Qed.

End Vote.

(** A vote leaves every key but [VOTED_USERS]. *)
Lemma guards_after_vote (m : option VotedUsers) (db : DB) :
  let db' := cell_write VOTED_USERS m db in
  (session_active db' <-> session_active db)
  /\ current_song db' = current_song db
  /\ participants db' = participants db
  /\ eligible_voters db' = eligible_voters db
  /\ voted_users db' = parse_or ∅ m.
Proof. destruct db; cbn; repeat split; auto. Qed.

(** C4: the vote button is rejected with SessionClosed when no session is
    active, else with VoteClosed when there is no current song or its id is
    not the button's, else with NotAParticipant when the user is not a
    participant, else with NotEligible when the user is not an eligible
    voter; a vote rejected in one of these four ways leaves the store as it
    was and issues no write. *)
Theorem vote_guards (u : UserId) (p : Z) (vid : string) (db : DB) :
  let r := vote u p vid db in
  (~ session_active db -> result r = ChannelMessage SessionClosed true)
  /\ (session_active db ->
      (forall song, current_song db = Some song -> song_id song <> vid) ->
      result r = ChannelMessage VoteClosed true)
  /\ (session_active db ->
      song_id <$> current_song db = Some vid ->
      u ∉ participants db ->
      result r = ChannelMessage NotAParticipant true)
  /\ (session_active db ->
      song_id <$> current_song db = Some vid ->
      u ∈ participants db ->
      u ∉ eligible_voters db ->
      result r = ChannelMessage NotEligible true)
  /\ (forall c : Content,
      result r = ChannelMessage c true ->
      c ∈ [SessionClosed; VoteClosed; NotAParticipant; NotEligible] ->
      store r = db /\ writes r = []).
Proof.
  cbv zeta. split_and!.
  - intros H. by rewrite vote_session_closed.
  - intros Ha Hs. rewrite vote_closed; [done..|].
    destruct (current_song db) as [song|] eqn:E; [|done].
    cbn. intros [= <-]. by apply (Hs song).
  - intros Ha Hs Hp. by rewrite vote_not_a_participant.
  - intros Ha Hs Hp He. by rewrite vote_not_eligible.
  - intros c.
    destruct (decide (session_active db)) as [Ha|Ha];
      [|by rewrite vote_session_closed].
    destruct (decide (song_id <$> current_song db = Some vid)) as [Hs|Hs];
      [|by rewrite vote_closed].
    destruct (decide (u ∈ participants db)) as [Hp|Hp];
      [|by rewrite vote_not_a_participant].
    destruct (decide (u ∈ eligible_voters db)) as [He|He];
      [|by rewrite vote_not_eligible].
    destruct (decide (voted_users db !! u = Some p)) as [Hv|Hv];
      [rewrite vote_retracts by done|rewrite vote_casts by done];
      cbn; intros [= <-] Hc;
      repeat (apply elem_of_cons in Hc as [Hc|Hc]; [discriminate|]);
      by apply elem_of_nil in Hc.
Qed.

(** C5: for a user the current track accepts votes from, pressing the score
    the user already holds retracts the vote, pressing any other score
    stores that score; hence a score cast and pressed again ends with the
    user not in VotedUsers, and score 1 followed by score 2 ends with
    VotedUsers[u] = 2.  The votes of the other users are not touched. *)
Theorem vote_toggle (u : UserId) (vid : string) (db : DB) :
  session_active db ->
  song_id <$> current_song db = Some vid ->
  u ∈ participants db ->
  u ∈ eligible_voters db ->
  (forall p, voted_users db !! u = Some p ->
     result (vote u p vid db) = ChannelMessage VoteRetracted true
     /\ voted_users (store (vote u p vid db)) !! u = None)
  /\ (forall p, voted_users db !! u <> Some p ->
     result (vote u p vid db) = ChannelMessage (VoteCast p) true
     /\ voted_users (store (vote u p vid db)) !! u = Some p)
  /\ (forall p, result (vote u p vid db) = ChannelMessage (VoteCast p) true ->
     let db1 := store (vote u p vid db) in
     result (vote u p vid db1) = ChannelMessage VoteRetracted true
     /\ voted_users (store (vote u p vid db1)) !! u = None)
  /\ voted_users (store (vote u 2 vid (store (vote u 1 vid db)))) !! u = Some 2
  /\ (forall p u', u' <> u ->
     voted_users (store (vote u p vid db)) !! u' = voted_users db !! u').
Proof.
  intros Ha Hs Hp He.
  assert (Hretract : forall db0 p,
    session_active db0 -> song_id <$> current_song db0 = Some vid ->
    u ∈ participants db0 -> u ∈ eligible_voters db0 ->
    voted_users db0 !! u = Some p ->
    result (vote u p vid db0) = ChannelMessage VoteRetracted true
    /\ voted_users (store (vote u p vid db0)) !! u = None).
  { intros db0 p ? ? ? ? Hv. rewrite vote_retracts by done. unfold result, store; cbn [fst snd]. split; [done|].
    destruct (guards_after_vote (Some (delete u (voted_users db0))) db0)
      as (_ & _ & _ & _ & ->).
    cbn. apply lookup_delete_eq. }
  assert (Hcast : forall db0 p,
    session_active db0 -> song_id <$> current_song db0 = Some vid ->
    u ∈ participants db0 -> u ∈ eligible_voters db0 ->
    voted_users db0 !! u <> Some p ->
    let db1 := store (vote u p vid db0) in
    result (vote u p vid db0) = ChannelMessage (VoteCast p) true
    /\ voted_users db1 !! u = Some p
    /\ session_active db1 /\ song_id <$> current_song db1 = Some vid
    /\ u ∈ participants db1 /\ u ∈ eligible_voters db1).
  { intros db0 p ? ? ? ? Hv. cbv zeta. rewrite vote_casts by done. unfold result, store; cbn [fst snd].
    destruct (guards_after_vote (Some (<[u:=p]> (voted_users db0))) db0)
      as (E1 & -> & -> & -> & ->).
    cbn. rewrite lookup_insert_eq. split_and!; try done. }
  split_and!.
  - intros p Hv. by apply Hretract.
  - intros p Hv. by destruct (Hcast db p) as (? & ? & _).
  - intros p H. cbv zeta.
    destruct (decide (voted_users db !! u = Some p)) as [Hv|Hv].
    + rewrite vote_retracts in H by done. discriminate.
    + destruct (Hcast db p) as (_ & ? & ? & ? & ? & ?); try done.
      by apply Hretract.
  - destruct (decide (voted_users db !! u = Some 1)) as [Hv|Hv].
    + rewrite (vote_retracts u 1 vid db) by done. unfold result, store; cbn [fst snd].
      destruct (guards_after_vote (Some (delete u (voted_users db))) db)
        as (E1 & E2 & E3 & E4 & E5).
      destruct (Hcast (cell_write VOTED_USERS (Some (delete u (voted_users db))) db) 2)
        as (_ & H2 & _); rewrite ?E2, ?E3, ?E4, ?E5; try done.
      cbn. by rewrite lookup_delete_eq.
    + destruct (Hcast db 1) as (_ & Hv1 & ? & ? & ? & ?); try done.
      destruct (Hcast (store (vote u 1 vid db)) 2) as (_ & Hsecond & _); try done.
      rewrite Hv1. discriminate.
  - intros p u' Hne.
    destruct (decide (voted_users db !! u = Some p)) as [Hv|Hv].
    + rewrite vote_retracts by done. unfold result, store; cbn [fst snd].
      destruct (guards_after_vote (Some (delete u (voted_users db))) db)
        as (_ & _ & _ & _ & ->).
      cbn. by rewrite lookup_delete_ne.
    + rewrite vote_casts by done. unfold result, store; cbn [fst snd].
      destruct (guards_after_vote (Some (<[u:=p]> (voted_users db))) db)
        as (_ & _ & _ & _ & ->).
      cbn. by rewrite lookup_insert_ne.
Qed.

Lemma vote_never_forbidden (u : UserId) (p : Z) (vid : string) (db : DB) (eph : bool) :
  result (vote u p vid db) <> ChannelMessage Forbidden eph.
Proof.
  destruct db as [sa q cs sp ev vu h]. handler. unfold result. repeat branch; discriminate.
Qed.

Lemma enter_never_forbidden (i : Interaction) (db : DB) (eph : bool) :
  result (enter i db) <> ChannelMessage Forbidden eph.
Proof.
  destruct db as [sa q cs sp ev vu h]. handler. unfold result. repeat branch; discriminate.
Qed.

Lemma exit_never_forbidden (i : Interaction) (db : DB) (eph : bool) :
  result (exit i db) <> ChannelMessage Forbidden eph.
Proof.
  destruct db as [sa q cs sp ev vu h]. handler. unfold result.
  do 2 (branch; try discriminate).
  destruct ev, vu as [vu|]; cbn; try discriminate;
    destruct (vu !! member_user_id i); cbn; try discriminate;
    branch; discriminate.
Qed.

(** C9: a slash command whose name is one of session-start, session-end,
    vote-start, vote-end, vote-next, kick and participants, sent by a
    caller who is not the manager, is answered with the ephemeral forbidden
    message without any access to the store; enter, exit and the vote
    button reach their handler whoever the caller is, and that handler
    never answers with the forbidden message. *)
Theorem manager_only (env : Env) (i : Interaction) (db : DB) :
  (type i = APPLICATION_COMMAND ->
   Text.toLowerCase (data_name i)
     ∈ ["session-start"; "session-end"; "vote-start"; "vote-end"; "vote-next"; "kick";
        "participants"] ->
   member_user_id i <> MANAGER_USER_ID env ->
   post env (Some i) db = (ChannelMessage Forbidden true, db, []))
  /\ (type i = APPLICATION_COMMAND ->
      Text.toLowerCase (data_name i) = "enter" ->
      post env (Some i) db = enter i db
      /\ forall eph, result (post env (Some i) db) <> ChannelMessage Forbidden eph)
  /\ (type i = APPLICATION_COMMAND ->
      Text.toLowerCase (data_name i) = "exit" ->
      post env (Some i) db = exit i db
      /\ forall eph, result (post env (Some i) db) <> ChannelMessage Forbidden eph)
  /\ (type i = MESSAGE_COMPONENT ->
      forall points buttonVidId,
      voteMatch (data_custom_id i) = Some (points, buttonVidId) ->
      post env (Some i) db = vote (member_user_id i) points buttonVidId db
      /\ forall eph, result (post env (Some i) db) <> ChannelMessage Forbidden eph).
Proof.
  split_and!.
  - intros Ht Hname Hcaller. unfold post. rewrite Ht.
    unfold isManager, managerOnlyCommands, SESSION_START_COMMAND, SESSION_END_COMMAND,
      VOTE_START_COMMAND, VOTE_END_COMMAND, VOTE_NEXT_COMMAND, KICK_COMMAND,
      PARTICIPANTS_COMMAND.
    rewrite bool_decide_eq_true_2.
    + by rewrite bool_decide_eq_false_2.
    + set_solver.
  - intros Ht Hname.
    assert (post env (Some i) db = enter i db) as E.
    { unfold post. rewrite Ht, Hname. reflexivity. }
    split; [done|]. intros eph. rewrite E. apply enter_never_forbidden.
  - intros Ht Hname.
    assert (post env (Some i) db = exit i db) as E.
    { unfold post. rewrite Ht, Hname. reflexivity. }
    split; [done|]. intros eph. rewrite E. apply exit_never_forbidden.
  - intros Ht points buttonVidId Hm.
    assert (post env (Some i) db = vote (member_user_id i) points buttonVidId db) as E.
    { unfold post. by rewrite Ht, Hm. }
    split; [done|]. intros eph. rewrite E. apply vote_never_forbidden.
Qed.

(** C8: with an active session, no current song and a queue that is empty
    or absent, vote-next answers QueueEmpty, and the store is left as it
    was: the three accesses are reads. *)
Theorem advance_queue_empty (db : DB) :
  session_active db ->
  current_song db = None ->
  queue db = [] ->
  vote_next db
  = (ChannelMessage QueueEmpty true, db,
     [Get "SESSION_ACTIVE"; Get "CURRENT_SONG"; Get "QUEUE"])
  /\ store (vote_next db) = db
  /\ writes (vote_next db) = [].
Proof.
  intros Ha Hs Hq.
  assert (vote_next db
          = (ChannelMessage QueueEmpty true, db,
             [Get "SESSION_ACTIVE"; Get "CURRENT_SONG"; Get "QUEUE"])) as E.
  { destruct db as [sa q cs sp ev vu h]. vocabulary. cbn in *. subst sa.
    destruct cs as [[|song]|], q as [[|track q]|]; try discriminate; reflexivity. }
  rewrite E. done.
Qed.

(** The part of C1 the code keeps: the literal text [false] under
    [SESSION_ACTIVE] makes vote-start and session-end answer NotActive
    after one read. *)
Lemma flag_false_rejects (env : Env) (i : Interaction) (db : DB) :
  db_SESSION_ACTIVE db = Some "false" ->
  vote_start env i db = (ChannelMessage NotActive true, db, [Get "SESSION_ACTIVE"])
  /\ session_end db = (ChannelMessage SessionNotActive true, db, [Get "SESSION_ACTIVE"]).
Proof.
  destruct db as [sa q cs sp ev vu h]. cbn. intros ->. split; reflexivity.
Qed.

(** With the key absent the guard of vote-start and of session-end does
    not fire. *)
Lemma flag_absent_passes (env : Env) (i : Interaction) (db : DB) :
  db_SESSION_ACTIVE db = None ->
  result (vote_start env i db) <> ChannelMessage NotActive true
  /\ result (session_end db) <> ChannelMessage SessionNotActive true.
Proof.
  destruct db as [sa q cs sp ev vu h]. cbn. intros ->. split.
  - handler. unfold result. tests.
    destruct (truthy cs); cbn; [discriminate|].
    destruct (option_url (data_options i)) as [url|]; cbn; [|discriminate].
    destruct (getVideoId url); cbn; discriminate.
  - handler. unfold result. tests. destruct (truthy cs); cbn; discriminate.
Qed.

(** C1, at the store no request has touched: the manager's vote-start is
    not rejected with NotActive but opens a vote and writes three keys, and
    the manager's session-end is not rejected either but writes the session
    flag and answers with an empty summary. *)
Theorem absent_flag_is_not_rejected :
  db_SESSION_ACTIVE empty_DB = None
  /\ post test_env (slash manager "vote-start" (with_url url_x)) empty_DB
     = (ChannelMessage
          (NowPlaying None "Unknown Song" url_x (default_image track_x) (vote_buttons track_x))
          false,
        mkDB None None (Some (SongJSON (mkSong "Unknown Song" track_x 0))) None (Some [])
          (Some ∅) None,
        [Get "SESSION_ACTIVE"; Get "CURRENT_SONG"; Get "SESSION_PARTICIPANTS";
         Put "CURRENT_SONG"; Put "VOTED_USERS"; Put "ELIGIBLE_VOTERS"])
  /\ post test_env (slash manager "session-end" no_options) empty_DB
     = (ChannelMessage (SessionEnded []) false,
        mkDB (Some "false") None None None None None None,
        [Get "SESSION_ACTIVE"; Get "CURRENT_SONG"; Put "SESSION_ACTIVE"; Get "HISTORY"]).
Proof. split_and!; vm_compute; reflexivity. Qed.

(** ** Starting a track, joining, ending a vote *)

(** A successful vote-start or vote-next: there was no current song; now
    there is one, the eligible voters are the participants of that moment,
    and nobody has voted. *)
Lemma start_track_success (env : Env) (t : TrackStart) (db : DB) :
  is_NowPlaying (result (start_track env t db)) = true ->
  let db' := store (start_track env t db) in
  current_song db = None
  /\ is_Some (current_song db')
  /\ db_ELIGIBLE_VOTERS db' = Some (participants db)
  /\ db_VOTED_USERS db' = Some ∅
  /\ db_SESSION_PARTICIPANTS db' = db_SESSION_PARTICIPANTS db
  /\ db_SESSION_ACTIVE db' = db_SESSION_ACTIVE db
  /\ db_HISTORY db' = db_HISTORY db.
Proof.
  destruct db as [sa q cs sp ev vu h], t as [i|]; cbn; handler; unfold result, store.
  - branch; [discriminate|].
    destruct cs as [[|song]|]; cbn; try discriminate.
    all: destruct (option_url (data_options i)) as [url|]; cbn; try discriminate.
    all: destruct (getVideoId url); cbn; try discriminate.
    all: intros _; split_and!; eauto.
  - branch; [discriminate|].
    destruct cs as [[|song]|]; cbn; try discriminate.
    all: destruct q as [[|track q]|]; cbn; try discriminate.
    all: intros _; split_and!; eauto.
Qed.

(** enter by a user who is not a participant of an active session. *)
Lemma enter_success (i : Interaction) (db : DB) :
  session_active db ->
  member_user_id i ∉ participants db ->
  enter i db
  = (ChannelMessage (Joined (length (participants db ++ [member_user_id i]))) true,
     cell_write SESSION_PARTICIPANTS (Some (participants db ++ [member_user_id i])) db,
     [Get "SESSION_ACTIVE"; Get "SESSION_PARTICIPANTS"; Put "SESSION_PARTICIPANTS"]).
Proof.
  destruct db as [sa q cs sp ev vu h]. vocabulary. cbn. intros -> H.
  handler. vocabulary. tests. reflexivity.
Qed.

(** vote-end with a current song. *)
Lemma vote_end_success (db : DB) (song : Song) :
  current_song db = Some song ->
  let totalPoints := foldl Z.add 0 (Object_values (voted_users db)) in
  let voterCount := Z.of_nat (length (Object_keys (voted_users db))) in
  let participantCount := Z.of_nat (length (eligible_voters db)) in
  vote_end db
  = (ChannelMessage
       (VoteEnded (song_title song) totalPoints voterCount participantCount
          (average_of totalPoints participantCount)
          (above_one (average_of totalPoints participantCount)))
       false,
     cell_write CURRENT_SONG (Some EmptyText)
       (cell_write HISTORY
          (Some (save_to_history song totalPoints voterCount participantCount (history db)))
          db),
     [Get "CURRENT_SONG"; Get "VOTED_USERS"; Get "ELIGIBLE_VOTERS"; Get "HISTORY";
      Put "HISTORY"; Put "CURRENT_SONG"]).
Proof.
  destruct db as [sa q cs sp ev vu h]. vocabulary. cbn.
  destruct cs as [[|song']|]; try discriminate. intros [= ->]. reflexivity.
Qed.

(** vote-end without a current song. *)
Lemma vote_end_no_song (db : DB) :
  current_song db = None ->
  vote_end db = (ChannelMessage NoCurrentSong true, db, [Get "CURRENT_SONG"]).
Proof.
  destruct db as [sa q cs sp ev vu h]. vocabulary. cbn.
  destruct cs as [[|song']|]; try discriminate; reflexivity.
Qed.

(** C6: eligibility is the snapshot of the participants taken when the
    track starts.  A user who is not a participant when vote-start or
    vote-next opens a track, and who joins afterwards, is a participant but
    every vote of theirs on that track is rejected with NotEligible and
    leaves the store as it was; once that vote is ended and a next track is
    started (by either command), the same user's vote on the new track is
    cast. *)
Theorem eligibility_snapshot (env : Env) (t1 t2 : TrackStart) (i : Interaction) (db : DB) :
  let u := member_user_id i in
  let db1 := store (start_track env t1 db) in
  let db2 := store (enter i db1) in
  let db3 := store (vote_end db2) in
  let db4 := store (start_track env t2 db3) in
  session_active db ->
  u ∉ participants db ->
  is_NowPlaying (result (start_track env t1 db)) = true ->
  (exists n, result (enter i db1) = ChannelMessage (Joined n) true)
  /\ u ∈ participants db2
  /\ (exists song, current_song db2 = Some song
      /\ forall p, result (vote u p (song_id song) db2) = ChannelMessage NotEligible true
                   /\ store (vote u p (song_id song) db2) = db2)
  /\ (is_NowPlaying (result (start_track env t2 db3)) = true ->
      exists song', current_song db4 = Some song'
      /\ forall p, result (vote u p (song_id song') db4) = ChannelMessage (VoteCast p) true
                   /\ voted_users (store (vote u p (song_id song') db4)) !! u = Some p).
Proof.
  intros u db1 db2 db3 db4 Ha Hu Hstart.
  destruct (start_track_success env t1 db Hstart) as (_ & [song1 Hs1] & He1 & Hv1 & Hp1 & Ha1 & _).
  fold db1 in Hs1, He1, Hv1, Hp1, Ha1.
  clearbody db1.
  assert (session_active db1) as Hactive1 by (unfold session_active; congruence).
  assert (participants db1 = participants db) as Hsame by (unfold participants; congruence).
  assert (u ∉ participants db1) as Hu1 by congruence.
  pose proof (enter_success i db1 Hactive1 Hu1) as Henter.
  assert (db2 = cell_write SESSION_PARTICIPANTS (Some (participants db1 ++ [u])) db1) as E2.
  { unfold db2. by rewrite Henter. }
  assert (session_active db2 /\ current_song db2 = Some song1
          /\ participants db2 = participants db ++ [u]
          /\ eligible_voters db2 = participants db) as (Hactive2 & Hs2 & Hp2 & He2).
  { rewrite E2. unfold session_active, current_song, participants, eligible_voters in *.
    destruct db1; cbn in *. subst. split_and!; done. }
  split_and!.
  - eexists. by rewrite Henter.
  - rewrite Hp2. set_solver.
  - exists song1. split; [done|]. intros p.
    rewrite vote_not_eligible; try done.
    + by rewrite Hs2.
    + rewrite Hp2. set_solver.
    + by rewrite He2.
  - intros Hstart2.
    pose proof (vote_end_success db2 song1 Hs2) as Hend. cbv zeta in Hend.
    assert (db_SESSION_ACTIVE db3 = db_SESSION_ACTIVE db2
            /\ db_SESSION_PARTICIPANTS db3 = db_SESSION_PARTICIPANTS db2) as (Ha3 & Hp3).
    { unfold db3. rewrite Hend. by destruct db2. }
    destruct (start_track_success env t2 db3 Hstart2)
      as (_ & [song2 Hs4] & He4 & Hv4 & Hp4 & Ha4 & _).
    fold db4 in Hs4, He4, Hv4, Hp4, Ha4.
    assert (participants db3 = participants db ++ [u]) as Hp3'.
    { rewrite <- Hp2. unfold participants. by rewrite Hp3. }
    exists song2. split; [done|]. intros p.
    rewrite vote_casts.
    + unfold result, store; cbn [fst snd]. split; [done|].
      destruct (guards_after_vote (Some (<[u:=p]> (voted_users db4))) db4)
        as (_ & _ & _ & _ & ->).
      cbn. apply lookup_insert_eq.
    + unfold session_active in *. congruence.
    + by rewrite Hs4.
    + unfold participants. rewrite Hp4. fold (participants db3). rewrite Hp3'. set_solver.
    + unfold eligible_voters. rewrite He4, Hp3'. cbn. set_solver.
    + unfold voted_users. rewrite Hv4. cbn. by rewrite lookup_empty.
Qed.

(** ** The sort of the final summary *)

Section Sort.
Context {A : Type} (key : A -> Q) (compare : A -> A -> Q).

(** [compare] orders by descending [key], as [(a, b) => key b - key a]
    does. *)
Hypothesis compare_key : forall a b, (compare a b <= 0)%Q <-> (key b <= key a)%Q.

Local Abbreviation descending := (descending key).

Lemma sort_insert_test (x y : A) :
  Qle_bool (compare x y) 0 = true <-> descending x y.
Proof. rewrite Qle_bool_iff. apply compare_key. Qed.

Lemma sort_insert_Permutation (x : A) (l : list A) : sort_insert compare x l ≡ₚ x :: l.
Proof.
  induction l as [|y l IH]; cbn; [done|].
  destruct (Qle_bool (compare x y) 0); [done|].
  rewrite IH. apply Permutation_swap.
Qed.

Lemma Array_sort_Permutation (l : list A) : Array_sort compare l ≡ₚ l.
Proof.
  induction l as [|x l IH]; [done|].
  change (Array_sort compare (x :: l)) with (sort_insert compare x (Array_sort compare l)).
  rewrite sort_insert_Permutation. by f_equiv.
Qed.

Lemma sort_insert_HdRel (x y : A) (l : list A) :
  descending y x -> HdRel descending y l -> HdRel descending y (sort_insert compare x l).
Proof.
  intros Hyx Hl. destruct l as [|z l]; cbn; [by constructor|].
  destruct (Qle_bool (compare x z) 0); constructor; [done|].
  by inversion Hl.
Qed.

Lemma sort_insert_Sorted (x : A) (l : list A) :
  Sorted descending l -> Sorted descending (sort_insert compare x l).
Proof.
  induction 1 as [|y l Hl IH Hy]; cbn; [by repeat constructor|].
  destruct (Qle_bool (compare x y) 0) eqn:E.
  - apply sort_insert_test in E. by repeat constructor.
  - constructor; [done|]. apply sort_insert_HdRel; [|done].
    unfold descending. apply Qnot_lt_le. intros Hlt.
    assert (descending x y) as Hxy by (by apply Qlt_le_weak).
    apply sort_insert_test in Hxy. congruence.
Qed.

Lemma Array_sort_Sorted (l : list A) : Sorted descending (Array_sort compare l).
Proof.
  induction l as [|x l IH]; [constructor|].
  change (Array_sort compare (x :: l)) with (sort_insert compare x (Array_sort compare l)).
  by apply sort_insert_Sorted.
Qed.

(** Stability: the elements of any one key stand in the sorted list in
    the order they had. *)
Lemma sort_insert_stable (q : Q) (x : A) (l : list A) :
  filter (fun a => key a == q)%Q (sort_insert compare x l)
  = filter (fun a => key a == q)%Q (x :: l).
Proof.
  induction l as [|y l IH]; cbn; [done|].
  destruct (Qle_bool (compare x y) 0) eqn:E; [done|].
  rewrite filter_cons, IH, !filter_cons.
  destruct (decide (key y == q)%Q) as [Hy|Hy], (decide (key x == q)%Q) as [Hx|Hx];
    try done.
  exfalso. assert (descending x y) as Hxy.
  { unfold descending. rewrite Hy, Hx. apply Qle_refl. }
  apply sort_insert_test in Hxy. congruence.
Qed.

Lemma Array_sort_stable (q : Q) (l : list A) :
  filter (fun a => key a == q)%Q (Array_sort compare l)
  = filter (fun a => key a == q)%Q l.
Proof.
  induction l as [|x l IH]; [done|].
  change (Array_sort compare (x :: l)) with (sort_insert compare x (Array_sort compare l)).
  by rewrite sort_insert_stable, !filter_cons, IH.
Qed.

End Sort.

Lemma by_average_key (a b : Entry) :
  (by_average a b <= 0)%Q <-> (entry_average b <= entry_average a)%Q.
Proof.
  unfold by_average, entry_average.
  set (x := average_of (totalPoints a) (participantCount a)).
  set (y := average_of (totalPoints b) (participantCount b)).
  rewrite <- (Qplus_le_l _ _ x). ring_simplify (y - x + x)%Q. by rewrite Qplus_0_l.
Qed.

(** ** The scores under VOTED_USERS *)

Lemma voteMatch_points (customId : string) (points : Z) (vid : string) :
  voteMatch customId = Some (points, vid) -> points = 1 \/ points = 2.
Proof.
  unfold voteMatch. intros H.
  repeat (case_match; try discriminate); simplify_eq; auto.
Qed.

(** The custom ids the vote handler accepts are exactly those of the two
    buttons of a track. *)
Lemma voteMatch_iff (customId : string) (points : Z) (vid : string) :
  voteMatch customId = Some (points, vid)
  <-> ((points = 1 /\ customId = "vote_1_" +:+ vid)
       \/ (points = 2 /\ customId = "vote_2_" +:+ vid))
      /\ vid <> "" /\ Text.no_line_terminator vid = true.
Proof.
  split.
  - unfold voteMatch. intros H.
    destruct customId as [|c1 [|c2 [|c3 [|c4 [|c5 [|c6 [|c7 rest]]]]]]]; cbn in H;
      repeat (case_bool_decide; cbn in H; try discriminate); try discriminate.
    all: repeat (case_match; cbn in *; try discriminate).
    all: simplify_eq.
    all: repeat match goal with H : _ && _ = true |- _ => apply andb_true_iff in H as [? ?] end.
    all: repeat match goal with H : bool_decide _ = true |- _ => apply bool_decide_eq_true_1 in H end.
    all: subst; split; [auto|split; auto].
  - intros ([[-> ->]|[-> ->]] & Hne & Hlt); unfold voteMatch.
    + change ("vote_1_" +:+ vid) with ("vote_" +:+ String "1" (String "_" vid)).
      cbv [String.append]. cbn -[Text.no_line_terminator].
      repeat (case_bool_decide; try done; cbn -[Text.no_line_terminator]; rewrite ?Hlt).
    + change ("vote_2_" +:+ vid) with ("vote_" +:+ String "2" (String "_" vid)).
      cbv [String.append]. cbn -[Text.no_line_terminator].
      repeat (case_bool_decide; try done; cbn -[Text.no_line_terminator]; rewrite ?Hlt).
Qed.

Ltac handler_voted_effect db :=
  intros E;
  destruct db as [sa q cs sp ev vu h];
  handler; run E; unfold voted_users; cbn;
  by constructor.

Lemma command_voted_effect (env : Env) (name : string) (i : Interaction) (db db' : DB)
    (r : Response) (l : list access) :
  command env name i db = (r, db', l) ->
  voted_effect false (voted_users db) (voted_users db').
Proof. unfold command. repeat case_match; handler_voted_effect db. Qed.

Lemma vote_voted_effect (u : UserId) (p : Z) (vid : string) (db db' : DB)
    (r : Response) (l : list access) :
  p = 1 \/ p = 2 ->
  vote u p vid db = (r, db', l) ->
  voted_effect true (voted_users db) (voted_users db').
Proof. intros Hp. handler_voted_effect db. Qed.

Lemma post_voted_effect (env : Env) (request : option Interaction) (db : DB) :
  voted_effect (is_component request) (voted_users db)
    (voted_users (store (post env request db))).
Proof.
  destruct (post env request db) as [[r db'] l] eqn:E. unfold store. cbn [fst snd].
  assert (forall r0, (mret r0 : M Response) db = (r, db', l) ->
            voted_effect (is_component request) (voted_users db) (voted_users db')) as Hpure.
  { intros r0 [= <- <- <-]. constructor. }
  destruct request as [i|]; unfold post in E; [|by eapply Hpure].
  unfold is_component in *. destruct (type i); try (by eapply Hpure).
  - destruct (_ && _); [by eapply Hpure|]. by eapply command_voted_effect.
  - destruct (voteMatch (data_custom_id i)) as [[points vid]|] eqn:Hm; [|by eapply Hpure].
    apply voteMatch_points in Hm. by eapply vote_voted_effect.
Qed.

Lemma voted_effect_scores (component : bool) (before after : VotedUsers) :
  voted_effect component before after ->
  (forall u p, before !! u = Some p -> p = 1 \/ p = 2) ->
  forall u p, after !! u = Some p -> p = 1 \/ p = 2.
Proof.
  intros [| |u'|u' p' _ Hp'] Hbefore u p.
  - apply Hbefore.
  - by rewrite lookup_empty.
  - rewrite lookup_delete. case_decide; [done|]. apply Hbefore.
  - rewrite lookup_insert. case_decide; [by intros [= <-]|]. apply Hbefore.
Qed.

(** Without a component nothing is added to [VOTED_USERS]. *)
Lemma voted_effect_no_new_score (before after : VotedUsers) :
  voted_effect false before after ->
  forall u p, after !! u = Some p -> before !! u = Some p.
Proof.
  intros [| |u'|u' p' ? _] u p;
    [done|by rewrite lookup_empty|rewrite lookup_delete; by case_decide|done].
Qed.

Lemma serve_snoc (env : Env) (db : DB) (requests : list (option Interaction))
    (request : option Interaction) :
  serve env db (requests ++ [request])
  = store (post env request (serve env db requests)).
Proof. unfold serve. by rewrite foldl_app. Qed.

Lemma serve_scores (env : Env) (requests : list (option Interaction)) :
  scores_1_or_2 (serve env empty_DB requests).
Proof.
  induction requests as [|request requests IH] using rev_ind.
  - intros u p. cbn. by rewrite lookup_empty.
  - rewrite serve_snoc. unfold scores_1_or_2.
    eapply voted_effect_scores; [apply post_voted_effect|apply IH].
Qed.

Lemma sum_at_most_twice (l : list (UserId * Z)) (acc : Z) :
  (forall u p, (u, p) ∈ l -> p = 1 \/ p = 2) ->
  foldl Z.add acc l.*2 <= acc + 2 * Z.of_nat (length l.*1).
Proof.
  revert acc. induction l as [|[u p] l IH]; intros acc Hl;
    cbn [fmap list_fmap foldl length fst snd].
  - cbn. lia.
  - assert (p = 1 \/ p = 2) as Hp by (apply (Hl u); left).
    assert (forall u p, (u, p) ∈ l -> p = 1 \/ p = 2) as Hl'
      by (intros; eapply Hl; by right).
    specialize (IH (acc + p) Hl'). cbn in *. lia.
Qed.

Lemma total_at_most_twice_voters (m : VotedUsers) :
  (forall u p, m !! u = Some p -> p = 1 \/ p = 2) ->
  foldl Z.add 0 (Object_values m) <= 2 * Z.of_nat (length (Object_keys m)).
Proof.
  intros Hm. unfold Object_values, Object_keys.
  pose proof (sum_at_most_twice (map_to_list m) 0) as H. rewrite Z.add_0_l in H.
  apply H. intros u p Hin. apply (Hm u). by apply elem_of_map_to_list.
Qed.

(** C10: in every store reached from the initial one by any sequence of
    requests (each served to completion), every score under VOTED_USERS is
    1 or 2.  The custom ids the vote handler accepts are those of the form
    vote_1_<id> and vote_2_<id>, with the digit as the score; a component
    interaction with any other custom id is answered with status 400 and
    touches nothing; a request leaves VOTED_USERS, empties it, removes a
    user, or (a component only) stores 1 or 2 for a user, so that no
    request other than a component adds a score.  Hence the total that
    vote-end reports is at most twice the number of voters it reports. *)
Theorem stored_scores (env : Env) (requests : list (option Interaction)) :
  let db := serve env empty_DB requests in
  scores_1_or_2 db
  /\ (forall customId points vid,
      voteMatch customId = Some (points, vid)
      <-> ((points = 1 /\ customId = "vote_1_" +:+ vid)
           \/ (points = 2 /\ customId = "vote_2_" +:+ vid))
          /\ vid <> "" /\ Text.no_line_terminator vid = true)
  /\ (forall user customId,
      voteMatch customId = None ->
      post env (button user customId) db = (BadRequest, db, []))
  /\ (forall request,
      voted_effect (is_component request) (voted_users db)
        (voted_users (store (post env request db))))
  /\ (forall request u p,
      is_component request = false ->
      voted_users (store (post env request db)) !! u = Some p ->
      voted_users db !! u = Some p)
  /\ (forall song_title totalPoints voterCount participantCount average high ephemeral,
      result (vote_end db)
      = ChannelMessage
          (VoteEnded song_title totalPoints voterCount participantCount average high)
          ephemeral ->
      totalPoints <= 2 * voterCount).
Proof.
  cbv zeta. split_and!.
  - apply serve_scores.
  - apply voteMatch_iff.
  - intros user customId Hm. unfold post, button. cbn. by rewrite Hm.
  - intros request. apply post_voted_effect.
  - intros request u p Hc. apply voted_effect_no_new_score.
    rewrite <- Hc. apply post_voted_effect.
  - intros t tp vc pc avg high eph.
    destruct (current_song (serve env empty_DB requests)) as [song|] eqn:Hs.
    + rewrite (vote_end_success _ song Hs). unfold result. cbn [fst].
      intros [= _ <- <- _ _ _ _]. apply total_at_most_twice_voters, serve_scores.
    + by rewrite (vote_end_no_song _ Hs).
Qed.

(** ** Invariant I1 along the state machine *)

Ltac handler_song_effect db :=
  intros E;
  destruct db as [sa q cs sp ev vu h];
  handler; run E; unfold song_effect, current_song; cbn;
  split_and?; first [ done | by eexists | auto ].

Lemma vote_song_effect (u : UserId) (p : Z) (vid : string) (db db' : DB) r l :
  vote u p vid db = (r, db', l) -> song_effect db db' r.
Proof. handler_song_effect db. Qed.

Lemma command_song_effect (env : Env) (name : string) (i : Interaction) (db db' : DB) r l :
  command env name i db = (r, db', l) -> song_effect db db' r.
Proof. unfold command. repeat case_match; handler_song_effect db. Qed.

Lemma post_song_effect (env : Env) (request : option Interaction) (db : DB) :
  song_effect db (store (post env request db)) (result (post env request db)).
Proof.
  destruct (post env request db) as [[r db'] l] eqn:E. unfold result, store. cbn.
  assert (forall r0, (match r0 with ChannelMessage _ _ => False | _ => True end) ->
            (mret r0 : M Response) db = (r, db', l) -> song_effect db db' r) as Hpure.
  { intros r0 Hr0 [= <- <- <-]. by destruct r0. }
  destruct request as [i|]; unfold post in E; [|eapply Hpure; [|exact E]; exact I].
  destruct (type i); try (eapply Hpure; [|exact E]; exact I).
  - destruct (_ && _).
    + unfold reject, mret, M_ret in E. simplify_eq. by cbn.
    + by eapply command_song_effect.
  - destruct (voteMatch (data_custom_id i)) as [[points vid]|]; [|eapply Hpure; [|exact E]; exact I].
    by eapply vote_song_effect.
Qed.

Lemma step_keeps_I1 (s s' : State) (db db' : DB) (r : Response) :
  I1_kept s db ->
  song_effect db db' r ->
  transition s r = Some s' ->
  I1_kept s' db'.
Proof.
  unfold I1_kept. intros [Hsong Hdefined] Heffect Hstep.
  assert (is_Some (@None Song) <-> False) as Hnone.
  { split; [by intros []%is_Some_None|done]. }
  destruct r as [| |c e| |]; cbn in *; simplify_eq;
    try (destruct Heffect as (-> & ? & ?); by intuition).
  destruct c, s; cbn in *; simplify_eq; destruct_and?;
    repeat match goal with
           | H : current_song db' = _ |- _ => rewrite H
           | H : db_ELIGIBLE_VOTERS db' = _ |- _ => rewrite H
           | H : db_VOTED_USERS db' = _ |- _ => rewrite H
           end;
    rewrite ?Hnone; intuition (try done).
Qed.

Lemma post_keeps_I1 (s s' : State) (env : Env) (request : option Interaction) (db : DB) :
  I1_kept s db ->
  transition s (result (post env request db)) = Some s' ->
  I1_kept s' (store (post env request db)).
Proof. intros Hinv. eapply step_keeps_I1; [done|]. apply post_song_effect. Qed.

Lemma follow_keeps_I1 (env : Env) (requests : list (option Interaction)) :
  forall s db s' db',
  I1_kept s db ->
  follow env s db requests = Some (s', db') ->
  I1_kept s' db'.
Proof.
  induction requests as [|request requests IH]; intros s db s' db' Hinv; cbn.
  - by intros [= <- <-].
  - destruct (transition s (result (post env request db))) as [s1|] eqn:Hstep; [|done].
    apply IH. by eapply post_keeps_I1.
Qed.

Lemma I1_kept_initially : I1_kept Closed empty_DB.
Proof. split; [split; [by intros []%is_Some_None|done]|by intros []%is_Some_None]. Qed.

(** ** Reading and writing a dictionary *)

Section Dict.
Context {A : Type}.
Implicit Types (o : JSObject.dict A) (k : string) (a : A).

Lemma own_update o k k' (f : A -> A) :
  JSObject.own (JSObject.update k f o) k'
  = if bool_decide (k' = k) then f <$> JSObject.own o k else JSObject.own o k'.
Proof.
  induction o as [|[k0 a0] o IH]; cbn; [by case_bool_decide|].
  repeat (case_bool_decide; cbn; simplify_eq; try done).
  all: rewrite IH; by repeat (case_bool_decide; simplify_eq).
Qed.

Lemma own_app o1 o2 k :
  JSObject.own (o1 ++ o2) k
  = match JSObject.own o1 k with Some a => Some a | None => JSObject.own o2 k end.
Proof.
  induction o1 as [|[k0 a0] o1 IH]; cbn; [done|]. by case_bool_decide.
Qed.

Lemma own_insert_index (n : N) o k a k' :
  JSObject.own o k = None ->
  JSObject.own (JSObject.insert_index n k a o) k'
  = if bool_decide (k' = k) then Some a else JSObject.own o k'.
Proof.
  induction o as [|[k0 a0] o IH]; cbn.
  - intros _. by repeat (case_bool_decide; simplify_eq).
  - intros Ho. destruct (decide (k0 = k)) as [->|Hne];
      [by rewrite bool_decide_eq_true_2 in Ho|rewrite bool_decide_eq_false_2 in Ho by done].
    destruct (JSObject.array_index k0) as [n0|]; [destruct (n0 <? n)%N|]; cbn.
    + rewrite IH by done. by repeat (case_bool_decide; simplify_eq).
    + by repeat (case_bool_decide; simplify_eq).
    + by repeat (case_bool_decide; simplify_eq).
Qed.

Lemma own_create o k a k' :
  JSObject.own o k = None ->
  JSObject.own (JSObject.create k a o) k'
  = if bool_decide (k' = k) then Some a else JSObject.own o k'.
Proof.
  intros Ho. unfold JSObject.create.
  destruct (JSObject.array_index k) as [n|]; [by apply own_insert_index|].
  rewrite own_app. cbn.
  case_bool_decide; simplify_eq.
  - rewrite Ho. by rewrite bool_decide_eq_true_2.
  - rewrite bool_decide_eq_false_2 by done. by destruct (JSObject.own o k').
Qed.

End Dict.

(** ** vote-end and the history *)

(** For a video id that is not a property name of [Object.prototype],
    "Save to History" sums into the entry of the id when there is one and
    creates it otherwise; the other entries stay. *)
Lemma save_to_history_merges (song : Song) (points voters participants_ : Z) (h : History) :
  song_id song ∉ JSObject.Object_prototype_names ->
  let h' := save_to_history song points voters participants_ h in
  JSObject.own h' (song_id song)
  = Some match JSObject.own h (song_id song) with
         | Some e =>
             mkEntry (title e) (totalPoints e + points) (voterCount e + voters)
               (participantCount e + participants_)
         | None => mkEntry (song_title song) points voters participants_
         end
  /\ forall k, k <> song_id song -> JSObject.own h' k = JSObject.own h k.
Proof.
  intros Hid. cbv zeta. unfold save_to_history, JSObject.get_property.
  destruct (JSObject.own h (song_id song)) as [e|] eqn:E.
  - split.
    + rewrite own_update, bool_decide_eq_true_2 by done. by rewrite E.
    + intros k Hk. by rewrite own_update, bool_decide_eq_false_2.
  - rewrite bool_decide_eq_false_2 by done. split.
    + by rewrite own_create, bool_decide_eq_true_2.
    + intros k Hk. by rewrite own_create, bool_decide_eq_false_2.
Qed.

(** For an id that names a property of [Object.prototype] and has no entry
    yet, nothing is recorded. *)
Lemma save_to_history_inherited (song : Song) (points voters participants_ : Z) (h : History) :
  song_id song ∈ JSObject.Object_prototype_names ->
  JSObject.own h (song_id song) = None ->
  save_to_history song points voters participants_ h = h.
Proof.
  intros Hid Ho. unfold save_to_history, JSObject.get_property.
  by rewrite Ho, bool_decide_eq_true_2.
Qed.

Lemma above_one_iff (q : Q) : above_one q = true <-> (1 < q)%Q.
Proof.
  unfold above_one. rewrite negb_true_iff, <- not_true_iff_false, Qle_bool_iff.
  split; [apply Qnot_le_lt|apply Qlt_not_le].
Qed.

Lemma average_of_zero (points count : Z) : count <= 0 -> average_of points count = 0%Q.
Proof. unfold average_of. intros H. by rewrite (proj2 (Z.ltb_ge 0 count)). Qed.

Lemma average_of_positive (points count : Z) :
  0 < count -> average_of points count = (inject_Z points / inject_Z count)%Q.
Proof. unfold average_of. intros H. by rewrite (proj2 (Z.ltb_lt 0 count)). Qed.

(** What vote-end does when the id of the current song is not a property
    name of [Object.prototype]: the statistics it reports, the entry of
    the history they are merged into, and the keys it writes. *)
Lemma vote_end_records (db : DB) (song : Song) :
  current_song db = Some song ->
  song_id song ∉ JSObject.Object_prototype_names ->
  let points := foldl Z.add 0 (Object_values (voted_users db)) in
  let voters := Z.of_nat (length (Object_keys (voted_users db))) in
  let eligible := Z.of_nat (length (eligible_voters db)) in
  let average := average_of points eligible in
  let db' := store (vote_end db) in
  result (vote_end db)
  = ChannelMessage
      (VoteEnded (song_title song) points voters eligible average (above_one average)) false
  /\ (eligible = 0 -> average = 0%Q)
  /\ (0 < eligible -> average = (inject_Z points / inject_Z eligible)%Q)
  /\ (above_one average = true <-> (1 < average)%Q)
  /\ JSObject.own (history db') (song_id song)
     = Some match JSObject.own (history db) (song_id song) with
            | Some e =>
                mkEntry (title e) (totalPoints e + points) (voterCount e + voters)
                  (participantCount e + eligible)
            | None => mkEntry (song_title song) points voters eligible
            end
  /\ (forall k, k <> song_id song -> JSObject.own (history db') k = JSObject.own (history db) k)
  /\ current_song db' = None.
Proof.
  intros Hsong Hid. cbv zeta. rewrite (vote_end_success db song Hsong).
  unfold result, store. cbn [fst snd].
  set (tp := foldl Z.add 0 (Object_values (voted_users db))).
  set (vc := Z.of_nat (length (Object_keys (voted_users db)))).
  set (pc := Z.of_nat (length (eligible_voters db))).
  destruct (save_to_history_merges song tp vc pc (history db) Hid) as [Hown Hother].
  split_and!.
  - done.
  - intros ->. by apply average_of_zero.
  - apply average_of_positive.
  - apply above_one_iff.
  - by destruct db.
  - intros k Hk. destruct db. by apply Hother.
  - by destruct db.
Qed.

(** C3, at a video id that names a property of [Object.prototype]: the
    manager starts a vote on https://youtu.be/constructor, a participant
    casts 2 points, and vote-end reports 2 points, 1 voter, 1 participant,
    average 2 and high approval; but the test [history[songData.id]] of
    line 422 finds [Object.prototype.constructor], so nothing is summed
    into and nothing is created in the history, which stays empty. *)
Theorem inherited_id_is_not_recorded :
  let requests :=
    [ slash manager "session-start" no_options;
      slash alice "enter" no_options;
      slash manager "vote-start" (with_url url_constructor);
      button alice "vote_2_constructor" ] in
  let db := serve test_env empty_DB requests in
  let r := post test_env (slash manager "vote-end" no_options) db in
  getVideoId url_constructor = Some "constructor"
  /\ current_song db = Some (mkSong "Unknown Song" "constructor" 0)
  /\ voted_users db !! alice = Some 2
  /\ result r = ChannelMessage (VoteEnded "Unknown Song" 2 1 1 (2 # 1) true) false
  /\ writes r = [Put "HISTORY"; Put "CURRENT_SONG"]
  /\ db_HISTORY (store r) = Some []
  /\ JSObject.own (history (store r)) "constructor" = None.
Proof. cbv zeta. split_and!; vm_compute; reflexivity. Qed.

(** C2 as amended: along every sequence of requests that follows the state
    machine from the closed state and the initial store, the current song
    is set exactly when a vote is in progress, and whenever it is set
    ELIGIBLE_VOTERS and VOTED_USERS hold a value; vote-end clears the
    current song and leaves ELIGIBLE_VOTERS and VOTED_USERS as they are. *)
Theorem I1_along_the_state_machine (env : Env) (requests : list (option Interaction))
    (s : State) (db : DB) :
  follow env Closed empty_DB requests = Some (s, db) ->
  (is_Some (current_song db) <-> s = OpenVoting)
  /\ (is_Some (current_song db) ->
      is_Some (db_ELIGIBLE_VOTERS db) /\ is_Some (db_VOTED_USERS db))
  /\ (is_Some (current_song db) ->
      let db' := store (vote_end db) in
      current_song db' = None
      /\ db_ELIGIBLE_VOTERS db' = db_ELIGIBLE_VOTERS db
      /\ db_VOTED_USERS db' = db_VOTED_USERS db).
Proof.
  intros Hfollow.
  destruct (follow_keeps_I1 env requests Closed empty_DB s db I1_kept_initially Hfollow)
    as [Hsong Hdefined].
  split_and!; try done.
  intros [song Hs]. cbv zeta. rewrite (vote_end_success db song Hs).
  unfold store. cbn [fst snd]. by destruct db.
Qed.

(** C2 as stated fails: after session-start, two enters, vote-start and
    vote-end (a sequence that follows the state machine and ends in the
    open state) no song is current, yet ELIGIBLE_VOTERS and VOTED_USERS
    still hold the values of the closed vote. *)
Lemma I1_fails_after_vote_end :
  exists db : DB,
    follow test_env Closed empty_DB ended_requests = Some (Open, db)
    /\ current_song db = None
    /\ db_ELIGIBLE_VOTERS db = Some [alice; bob]
    /\ db_VOTED_USERS db = Some ∅
    /\ ~ I1 Open db.
Proof.
  eexists. split; [vm_compute; reflexivity|]. split_and!; try reflexivity.
  intros (_ & [H _] & _). by destruct H as [song Hsong].
Qed.

(** C7: with the session flag true and no current song, session-end
    writes the text false under SESSION_ACTIVE and nothing else, and its
    summary lists the entries of the history sorted by descending average
    (totalPoints / participantCount, 0 when participantCount is 0): the
    lines are a permutation of the entries, each line is followed by one
    of at most its average, and entries of equal average keep the order
    they have in the history. *)
Theorem session_end_summary (db : DB) :
  session_active db ->
  current_song db = None ->
  exists sortedSongs : list Entry,
    session_end db
    = (ChannelMessage (SessionEnded (map summary_line sortedSongs)) false,
       cell_write SESSION_ACTIVE (Some "false") db,
       [Get "SESSION_ACTIVE"; Get "CURRENT_SONG"; Put "SESSION_ACTIVE"; Get "HISTORY"])
    /\ db_SESSION_ACTIVE (store (session_end db)) = Some "false"
    /\ sortedSongs ≡ₚ JSObject.values (history db)
    /\ Sorted (descending entry_average) sortedSongs
    /\ (forall q : Q,
        filter (fun e => entry_average e == q)%Q sortedSongs
        = filter (fun e => entry_average e == q)%Q (JSObject.values (history db)))
    /\ (forall e : Entry,
        line_average (summary_line e) = entry_average e
        /\ (participantCount e = 0 -> entry_average e = 0%Q)
        /\ (0 < participantCount e ->
            entry_average e = (inject_Z (totalPoints e) / inject_Z (participantCount e))%Q)).
Proof.
  intros Ha Hs.
  exists (Array_sort by_average (JSObject.values (history db))).
  assert (session_end db
    = (ChannelMessage
         (SessionEnded (map summary_line (Array_sort by_average (JSObject.values (history db)))))
         false,
       cell_write SESSION_ACTIVE (Some "false") db,
       [Get "SESSION_ACTIVE"; Get "CURRENT_SONG"; Put "SESSION_ACTIVE"; Get "HISTORY"])) as E.
  { destruct db as [sa q cs sp ev vu h]. vocabulary. cbn in *. subst sa.
    destruct cs as [[|song]|]; try discriminate; reflexivity. }
  split_and!.
  - done.
  - rewrite E. by destruct db.
  - apply Array_sort_Permutation.
  - apply Array_sort_Sorted, by_average_key.
  - intros q. apply Array_sort_stable, by_average_key.
  - intros e. split_and!; [done|intros H|apply average_of_positive].
    apply average_of_zero. lia.
Qed.

(** The example of the specification: averages 2, 0 and 3/2 come back in
    the order 2, 3/2, 0. *)
Example session_end_summary_example :
  result (session_end summary_db)
  = ChannelMessage
      (SessionEnded
         [ mkSummaryLine "A" (4 # 2) 2; mkSummaryLine "C" (3 # 2) 2; mkSummaryLine "B" 0 0 ])
      false.
Proof. vm_compute. reflexivity. Qed.

(** ** Instances *)

(** C2 on the session of two participants with a vote open. *)
Lemma I1_along_the_state_machine_witness :
  (is_Some (current_song voting_db) <-> OpenVoting = OpenVoting)
  /\ is_Some (db_ELIGIBLE_VOTERS voting_db)
  /\ is_Some (db_VOTED_USERS voting_db)
  /\ current_song (store (vote_end voting_db)) = None
  /\ db_ELIGIBLE_VOTERS (store (vote_end voting_db)) = Some [alice; bob].
Proof.
  assert (follow test_env Closed empty_DB voting_requests = Some (OpenVoting, voting_db))
    as Hfollow by (vm_compute; reflexivity).
  destruct (I1_along_the_state_machine test_env voting_requests OpenVoting voting_db Hfollow)
    as (Hsong & Hdefined & Hend).
  assert (is_Some (current_song voting_db)) as Hset by (by apply Hsong).
  destruct (Hdefined Hset) as [He Hv]. destruct (Hend Hset) as (Hs' & He' & _).
  split_and!; first [done|by rewrite He'].
Defined.

(** C4 on a user who never entered the session. *)
Lemma vote_guards_witness :
  result (vote 303%N 1 track_x voting_db) = ChannelMessage NotAParticipant true
  /\ store (vote 303%N 1 track_x voting_db) = voting_db
  /\ writes (vote 303%N 1 track_x voting_db) = [].
Proof.
  destruct (vote_guards 303%N 1 track_x voting_db) as (_ & _ & Hparticipant & _ & Hframe).
  assert (result (vote 303%N 1 track_x voting_db) = ChannelMessage NotAParticipant true) as E.
  { apply Hparticipant; [reflexivity|reflexivity|].
    apply (bool_decide_unpack _). vm_compute. exact I. }
  split; [exact E|]. apply (Hframe NotAParticipant E). by repeat constructor.
Defined.

(** C5 on alice and the open vote. *)
Lemma vote_toggle_witness :
  voted_users (store (vote alice 1 track_x (store (vote alice 1 track_x voting_db)))) !! alice
  = None
  /\ voted_users (store (vote alice 2 track_x (store (vote alice 1 track_x voting_db)))) !! alice
     = Some 2.
Proof.
  assert (session_active voting_db) as Ha by reflexivity.
  assert (song_id <$> current_song voting_db = Some track_x) as Hs by reflexivity.
  assert (alice ∈ participants voting_db) as Hp
    by (apply (bool_decide_unpack _); vm_compute; exact I).
  assert (alice ∈ eligible_voters voting_db) as He
    by (apply (bool_decide_unpack _); vm_compute; exact I).
  destruct (vote_toggle alice track_x voting_db Ha Hs Hp He)
    as (_ & Hcast & Htwice & Hthen & _).
  split; [|exact Hthen].
  apply (Htwice 1). apply Hcast. vm_compute. discriminate.
Defined.

(** C6 on bob, who enters after the vote on [track_x] has started. *)
Lemma eligibility_snapshot_witness :
  let db1 := store (start_track test_env (StartVoteOnUrl start_x) alice_db) in
  let db2 := store (enter bob_enters db1) in
  let db3 := store (vote_end db2) in
  let db4 := store (start_track test_env (StartVoteOnUrl start_y) db3) in
  bob ∈ participants db2
  /\ result (vote bob 2 track_x db2) = ChannelMessage NotEligible true
  /\ result (vote bob 2 "9bZkp7q19f0" db4) = ChannelMessage (VoteCast 2) true.
Proof.
  cbv zeta.
  assert (session_active alice_db) as Ha by reflexivity.
  assert (member_user_id bob_enters ∉ participants alice_db) as Hu
    by (apply (bool_decide_unpack _); vm_compute; exact I).
  assert (is_NowPlaying (result (start_track test_env (StartVoteOnUrl start_x) alice_db)) = true)
    as Hstart by (vm_compute; reflexivity).
  destruct (eligibility_snapshot test_env (StartVoteOnUrl start_x) (StartVoteOnUrl start_y)
              bob_enters alice_db Ha Hu Hstart)
    as (_ & Hin & (song & Hsong & Hvote) & Hnext).
  split; [exact Hin|]. split.
  - assert (song = mkSong "Unknown Song" track_x 0) as ->
      by (vm_compute in Hsong; injection Hsong as <-; reflexivity).
    apply (Hvote 2).
  - destruct Hnext as (song' & Hsong' & Hvote'); [vm_compute; reflexivity|].
    assert (song' = mkSong "Unknown Song" "9bZkp7q19f0" 0) as ->
      by (vm_compute in Hsong'; injection Hsong' as <-; reflexivity).
    apply (Hvote' 2).
Defined.

(** C7 on the history of three tracks. *)
Lemma session_end_summary_witness :
  exists sortedSongs : list Entry,
    result (session_end summary_db)
    = ChannelMessage (SessionEnded (map summary_line sortedSongs)) false
    /\ db_SESSION_ACTIVE (store (session_end summary_db)) = Some "false"
    /\ sortedSongs ≡ₚ JSObject.values three_tracks
    /\ Sorted (descending entry_average) sortedSongs.
Proof.
  destruct (session_end_summary summary_db) as (sortedSongs & E & Hflag & Hperm & Hsorted & _);
    [reflexivity|reflexivity|].
  exists sortedSongs. rewrite E. split_and!; done.
Defined.

(** C8 on a session that was started without a playlist. *)
Lemma advance_queue_empty_witness :
  result (vote_next open_db) = ChannelMessage QueueEmpty true
  /\ store (vote_next open_db) = open_db
  /\ writes (vote_next open_db) = [].
Proof.
  destruct (advance_queue_empty open_db) as (E & Hstore & Hwrites);
    [reflexivity|reflexivity|reflexivity|].
  rewrite E. split_and!; done.
Defined.

(** C9 on alice, who is not the manager, sending vote-start. *)
Lemma manager_only_witness :
  post test_env (Some alice_starts) voting_db = (ChannelMessage Forbidden true, voting_db, []).
Proof.
  destruct (manager_only test_env alice_starts voting_db) as (Hforbidden & _).
  apply Hforbidden; [reflexivity|vm_compute; by repeat constructor|vm_compute; discriminate].
Defined.

(** C10 on the vote with 2 points of alice and 1 point of bob. *)
Lemma stored_scores_witness :
  let db := serve test_env empty_DB voted_requests in
  voted_users db !! alice = Some 2
  /\ voted_users db !! bob = Some 1
  /\ result (vote_end db)
     = ChannelMessage (VoteEnded "Unknown Song" 3 2 2 (3 # 2) true) false
  /\ 3 <= 2 * 2.
Proof.
  cbv zeta.
  pose proof (stored_scores test_env voted_requests) as Hscores. cbv zeta in Hscores.
  destruct Hscores as (_ & _ & _ & _ & _ & Htotal).
  assert (result (vote_end (serve test_env empty_DB voted_requests))
          = ChannelMessage (VoteEnded "Unknown Song" 3 2 2 (3 # 2) true) false) as E
    by (vm_compute; reflexivity).
  split_and!; [vm_compute; reflexivity|vm_compute; reflexivity|exact E|].
  exact (Htotal "Unknown Song" 3 2 2 (3 # 2)%Q true false E).
Defined.

(** * Further properties of the handlers *)

(** The three ways a request is served. *)
Lemma post_cases (env : Env) (request : option Interaction) (db db' : DB)
    (r : Response) (l : list access) :
  post env request db = (r, db', l) ->
  (db' = db /\ l = []
   /\ r ∈ [BadSignature; PONG; BadRequest; ChannelMessage Forbidden true])
  \/ (exists i, request = Some i /\ type i = APPLICATION_COMMAND
      /\ command env (Text.toLowerCase (data_name i)) i db = (r, db', l))
  \/ (exists i points vid, request = Some i /\ type i = MESSAGE_COMPONENT
      /\ voteMatch (data_custom_id i) = Some (points, vid)
      /\ vote (member_user_id i) points vid db = (r, db', l)).
Proof.
  intros E. destruct request as [i|]; unfold post in E.
  - destruct (type i) eqn:Ht.
    + left. unfold mret, M_ret in E. simplify_eq. split_and!; try done. set_solver.
    + destruct (_ && _).
      * left. unfold reject, mret, M_ret in E. simplify_eq. split_and!; try done. set_solver.
      * right. left. by exists i.
    + destruct (voteMatch (data_custom_id i)) as [[points vid]|] eqn:Hm.
      * right. right. by exists i, points, vid.
      * left. unfold mret, M_ret in E. simplify_eq. split_and!; try done. set_solver.
    + left. unfold mret, M_ret in E. simplify_eq. split_and!; try done. set_solver.
  - left. unfold mret, M_ret in E. simplify_eq. split_and!; try done. set_solver.
Qed.

Ltac handler_frame db :=
  intros E;
  destruct db as [sa q cs sp ev vu h];
  handler; run E; cbn; try done.

Lemma vote_frame (u : UserId) (p : Z) (vid : string) (db db' : DB) r l :
  vote u p vid db = (r, db', l) ->
  leaves_store r = true -> db' = db /\ filter (fun a => is_write a = true) l = [].
Proof. handler_frame db. Qed.

Lemma command_frame (env : Env) (name : string) (i : Interaction) (db db' : DB) r l :
  command env name i db = (r, db', l) ->
  leaves_store r = true -> db' = db /\ filter (fun a => is_write a = true) l = [].
Proof. unfold command. repeat case_match; handler_frame db. Qed.

(** X1: whatever the request and the store, a response that refuses the
    request (or lists the participants, or is not a channel message)
    comes with the store unchanged and without any put or delete. *)
Theorem refusals_leave_the_store (env : Env) (request : option Interaction) (db : DB) :
  leaves_store (result (post env request db)) = true ->
  store (post env request db) = db /\ writes (post env request db) = [].
Proof.
  destruct (post env request db) as [[r db'] l] eqn:E. unfold result, store, writes, accesses.
  cbn [fst snd].
  destruct (post_cases _ _ _ _ _ _ E) as [(-> & -> & _)|[(i & _ & _ & Hc)|(i & p & vid & _ & _ & _ & Hv)]].
  - done.
  - by eapply command_frame.
  - by eapply vote_frame.
Qed.

Lemma includes_true (l : list UserId) (u : UserId) : includes l u = true <-> u ∈ l.
Proof. unfold includes. apply bool_decide_eq_true. Qed.

Lemma includes_false (l : list UserId) (u : UserId) : includes l u = false <-> u ∉ l.
Proof. unfold includes. apply bool_decide_eq_false. Qed.

Ltac tests_to_props :=
  repeat match goal with
         | H : negb _ = true |- _ => apply negb_true_iff in H
         | H : negb _ = false |- _ => apply negb_false_iff in H
         | H : includes _ _ = true |- _ => apply includes_true in H
         | H : includes _ _ = false |- _ => apply includes_false in H
         | H : bool_decide _ = true |- _ => apply bool_decide_eq_true in H
         | H : bool_decide _ = false |- _ => apply bool_decide_eq_false in H
         end.

Ltac roster_leaf :=
  unfold rosters_change, participants, eligible_voters, voted_users, parse_or; cbn;
  tests_to_props;
  first
    [ apply roster_same
    | apply roster_session_start
    | apply roster_track_start
    | (apply roster_enter; assumption)
    | (eapply (roster_vote _ _ _ _ _); [eassumption|]; first [by left|right; by eexists])
    | match goal with
      | |- roster_effect ?P ?E ?V (filter (fun id => id <> ?u) ?P) _ ?V' =>
          change (roster_effect P E V (without u P) (without u E) V');
          apply roster_leave;
          first
            [ by left
            | right; split; [reflexivity|]; first [by left|left; apply lookup_empty]
            | right; split; [reflexivity|]; right;
              match goal with
              | H : _ !! _ = Some ?z |- _ =>
                  rewrite H; f_equal; by destruct (decide (z = 0))
              end ]
      end ].

Ltac handler_rosters db :=
  intros E;
  destruct db as [sa q cs sp ev vu h];
  handler; run E; roster_leaf.

Lemma vote_rosters (u : UserId) (p : Z) (vid : string) (db db' : DB) r l :
  vote u p vid db = (r, db', l) -> rosters_change db db'.
Proof. handler_rosters db. Qed.

Lemma command_rosters (env : Env) (name : string) (i : Interaction) (db db' : DB) r l :
  command env name i db = (r, db', l) -> rosters_change db db'.
Proof. unfold command. repeat case_match; handler_rosters db. Qed.

Lemma post_rosters (env : Env) (request : option Interaction) (db : DB) :
  rosters_change db (store (post env request db)).
Proof.
  destruct (post env request db) as [[r db'] l] eqn:E. unfold store. cbn [fst snd].
  destruct (post_cases _ _ _ _ _ _ E)
    as [(-> & _)|[(i & _ & _ & Hc)|(i & p & vid & _ & _ & _ & Hv)]].
  - apply roster_same.
  - by eapply command_rosters.
  - by eapply vote_rosters.
Qed.

Lemma elem_of_without (x u : UserId) (l : list UserId) :
  u ∈ without x l <-> u ∈ l /\ u <> x.
Proof. unfold without. rewrite list_elem_of_filter. tauto. Qed.

Lemma roster_effect_consistent (P E P' E' : list UserId) (V V' : VotedUsers) :
  roster_effect P E V P' E' V' ->
  (forall u p, V !! u = Some p -> p = 1 \/ p = 2) ->
  consistent_rosters P E V ->
  consistent_rosters P' E' V'.
Proof.
  intros Heffect Hscores (HP & HE & HEP & HVE).
  destruct Heffect as [| | |u Hu|u V' HV'|u V' Hu HV']; unfold consistent_rosters.
  - done.
  - split_and!; try apply NoDup_nil_2; [set_solver|].
    intros u. rewrite lookup_empty. by intros [].
  - split_and!; try done. intros u. rewrite lookup_empty. by intros [].
  - split_and!; try done.
    + apply NoDup_app. split_and!; [done| |apply NoDup_singleton].
      intros x Hx ->%list_elem_of_singleton. done.
    + intros x Hx. apply elem_of_app. left. by apply HEP.
  - split_and!.
    + by apply NoDup_filter.
    + by apply NoDup_filter.
    + intros x [Hx Hne]%elem_of_without. apply elem_of_without. split; [by apply HEP|done].
    + intros x Hx. apply elem_of_without.
      destruct HV' as [->|[-> [Hnone|Hzero]]].
      * rewrite lookup_delete in Hx. case_decide; [by destruct Hx|]. split; [by apply HVE|done].
      * split; [by apply HVE|]. intros ->. rewrite Hnone in Hx. by destruct Hx.
      * destruct (Hscores u 0 Hzero) as [?|?]; discriminate.
  - split_and!; try done. intros x Hx.
    destruct HV' as [->|[p ->]].
    + rewrite lookup_delete in Hx. case_decide; [by destruct Hx|]. by apply HVE.
    + rewrite lookup_insert in Hx. case_decide; [by subst|]. by apply HVE.
Qed.

Lemma serve_consistent_rosters (env : Env) (requests : list (option Interaction)) :
  let db := serve env empty_DB requests in
  consistent_rosters (participants db) (eligible_voters db) (voted_users db).
Proof.
  cbv zeta. induction requests as [|request requests IH] using rev_ind.
  - cbn. split_and!; try apply NoDup_nil_2; [set_solver|].
    intros u. rewrite lookup_empty. by intros [].
  - rewrite serve_snoc.
    eapply roster_effect_consistent; [apply post_rosters|apply serve_scores|apply IH].
Qed.

(** X2: in every store reached from the initial one, no user is listed
    twice among the participants or among the eligible voters, every
    eligible voter is a participant, and every user with a vote is an
    eligible voter. *)
Theorem rosters_stay_consistent (env : Env) (requests : list (option Interaction)) :
  let db := serve env empty_DB requests in
  NoDup (participants db)
  /\ NoDup (eligible_voters db)
  /\ (forall u, u ∈ eligible_voters db -> u ∈ participants db)
  /\ (forall u, is_Some (voted_users db !! u) -> u ∈ eligible_voters db).
Proof. apply serve_consistent_rosters. Qed.

Lemma sum_at_least_once (l : list (UserId * Z)) (acc : Z) :
  (forall u p, (u, p) ∈ l -> p = 1 \/ p = 2) ->
  acc + Z.of_nat (length l.*1) <= foldl Z.add acc l.*2.
Proof.
  revert acc. induction l as [|[u p] l IH]; intros acc Hl;
    cbn [fmap list_fmap foldl length fst snd].
  - cbn. lia.
  - assert (p = 1 \/ p = 2) as Hp by (apply (Hl u); left).
    assert (forall u p, (u, p) ∈ l -> p = 1 \/ p = 2) as Hl'
      by (intros; eapply Hl; by right).
    specialize (IH (acc + p) Hl'). cbn in *. lia.
Qed.

Lemma total_at_least_voters (m : VotedUsers) :
  (forall u p, m !! u = Some p -> p = 1 \/ p = 2) ->
  Z.of_nat (length (Object_keys m)) <= foldl Z.add 0 (Object_values m).
Proof.
  intros Hm. unfold Object_values, Object_keys.
  pose proof (sum_at_least_once (map_to_list m) 0) as H. rewrite Z.add_0_l in H.
  apply H. intros u p Hin. apply (Hm u). by apply elem_of_map_to_list.
Qed.

Lemma voters_at_most_eligible (m : VotedUsers) (E : list UserId) :
  (forall u, is_Some (m !! u) -> u ∈ E) ->
  (length (Object_keys m) <= length E)%nat.
Proof.
  intros Hm. unfold Object_keys. apply submseteq_length, NoDup_submseteq.
  - apply NoDup_fst_map_to_list.
  - intros u [[u' p] [-> Hin]]%list_elem_of_fmap. apply Hm.
    apply elem_of_map_to_list in Hin. by exists p.
Qed.

Lemma average_of_bounds (points voters count : Z) :
  voters <= points <= 2 * voters -> 0 <= voters <= count ->
  (0 <= average_of points count)%Q /\ (average_of points count <= 2)%Q.
Proof.
  intros Hp Hv. unfold average_of. destruct (0 <? count) eqn:Hc.
  - apply Z.ltb_lt in Hc.
    assert (inject_Z 0 < inject_Z count)%Q as Hpos by (by rewrite <- Zlt_Qlt).
    split.
    + apply Qle_shift_div_l; [done|]. rewrite Qmult_0_l.
      change 0%Q with (inject_Z 0). rewrite <- Zle_Qle. lia.
    + apply Qle_shift_div_r; [done|].
      change 2%Q with (inject_Z 2). rewrite <- inject_Z_mult, <- Zle_Qle. lia.
  - split; [apply Qle_refl|]. by compute.
Qed.

(** X3: in every store reached from the initial one, what vote-end reports
    is bounded: each voter gave at least 1 and at most 2 points, there are
    no more voters than eligible participants, and the average lies
    between 0 and 2. *)
Theorem vote_end_report_bounds (env : Env) (requests : list (option Interaction))
    (song_title : string) (totalPoints voterCount participantCount : Z) (average : Q)
    (high ephemeral : bool) :
  result (vote_end (serve env empty_DB requests))
  = ChannelMessage
      (VoteEnded song_title totalPoints voterCount participantCount average high) ephemeral ->
  voterCount <= totalPoints <= 2 * voterCount
  /\ 0 <= voterCount <= participantCount
  /\ (0 <= average)%Q /\ (average <= 2)%Q.
Proof.
  set (db := serve env empty_DB requests).
  destruct (serve_consistent_rosters env requests) as (_ & _ & _ & Hvoted). fold db in Hvoted.
  pose proof (serve_scores env requests) as Hscores. fold db in Hscores.
  destruct (current_song db) as [song|] eqn:Hs.
  - rewrite (vote_end_success _ song Hs). unfold result. cbn [fst].
    intros [= _ <- <- <- <- _ _].
    assert (Z.of_nat (length (Object_keys (voted_users db)))
            <= foldl Z.add 0 (Object_values (voted_users db))
            <= 2 * Z.of_nat (length (Object_keys (voted_users db)))) as Hp.
    { split; [by apply total_at_least_voters|by apply total_at_most_twice_voters]. }
    assert (0 <= Z.of_nat (length (Object_keys (voted_users db)))
            <= Z.of_nat (length (eligible_voters db))) as Hv.
    { split; [lia|]. apply inj_le. by apply voters_at_most_eligible. }
    split; [done|]. split; [done|]. by eapply average_of_bounds.
  - by rewrite (vote_end_no_song _ Hs).
Qed.



(** ** Leaving and being kicked *)

Lemma without_absent (u : UserId) (l : list UserId) : u ∉ l -> without u l = l.
Proof.
  intros Hu. unfold without. induction l as [|x l IH]; [done|].
  rewrite filter_cons. apply not_elem_of_cons in Hu as [Hne Hu].
  rewrite decide_True by done. by rewrite IH.
Qed.

Lemma without_snoc (u : UserId) (l : list UserId) : u ∉ l -> without u (l ++ [u]) = l.
Proof.
  intros Hu. unfold without. rewrite filter_app, filter_cons, decide_False by (by intros ?).
  rewrite filter_nil, app_nil_r. by apply without_absent.
Qed.

(** The removal shared by exit and kick, for a user whose stored score is
    not 0: the user is filtered out of the participants given and of the
    eligible voters, the user's vote is deleted, and the other keys stay. *)
Lemma remove_user_effect (u : UserId) (P : list UserId) (db : DB) :
  voted_users db !! u <> Some 0 ->
  let db' := store (remove_user u P db) in
  participants db' = without u P
  /\ eligible_voters db' = without u (eligible_voters db)
  /\ voted_users db' = delete u (voted_users db)
  /\ db_SESSION_ACTIVE db' = db_SESSION_ACTIVE db
  /\ db_QUEUE db' = db_QUEUE db
  /\ db_CURRENT_SONG db' = db_CURRENT_SONG db
  /\ db_HISTORY db' = db_HISTORY db
  /\ (is_Some (db_ELIGIBLE_VOTERS db') <-> is_Some (db_ELIGIBLE_VOTERS db))
  /\ (is_Some (db_VOTED_USERS db') <-> is_Some (db_VOTED_USERS db)).
Proof.
  destruct db as [sa q cs sp ev vu h]. vocabulary. cbn. intros Hzero.
  unfold remove_user, store. handler.
  destruct ev as [E|], vu as [V|]; cbn in *;
    try destruct (V !! u) as [p|] eqn:Hp; cbn;
    try (rewrite bool_decide_eq_true_2 by congruence; cbn);
    split_and!; try done;
    first [by rewrite delete_empty | symmetry; by apply delete_id].
Qed.

Lemma exit_success (i : Interaction) (db : DB) :
  session_active db ->
  member_user_id i ∈ participants db ->
  exit i db
  = (ChannelMessage Left true,
     store (remove_user (member_user_id i) (participants db) db),
     [Get "SESSION_ACTIVE"; Get "SESSION_PARTICIPANTS"]
     ++ accesses (remove_user (member_user_id i) (participants db) db)).
Proof.
  destruct db as [sa q cs sp ev vu h]. vocabulary. cbn. intros -> Hin.
  unfold exit, store, accesses. handler. vocabulary. tests.
  destruct ev, vu as [V|]; cbn; try done; destruct (V !! member_user_id i); cbn; try done;
    by case_bool_decide.
Qed.

Lemma kick_success (i : Interaction) (target : UserId) (db : DB) :
  session_active db ->
  option_user (data_options i) = Some target ->
  target ∈ participants db ->
  kick i db
  = (ChannelMessage Kicked true,
     store (remove_user target (participants db) db),
     [Get "SESSION_ACTIVE"; Get "SESSION_PARTICIPANTS"]
     ++ accesses (remove_user target (participants db) db)).
Proof.
  destruct db as [sa q cs sp ev vu h]. vocabulary. cbn. intros -> Ht Hin.
  unfold kick, store, accesses. handler. rewrite Ht. vocabulary. tests.
  destruct ev, vu as [V|]; cbn; try done; destruct (V !! target); cbn; try done;
    by case_bool_decide.
Qed.

Lemma remove_user_removed (u : UserId) (db : DB) :
  voted_users db !! u <> Some 0 ->
  removed u db (store (remove_user u (participants db) db)).
Proof.
  intros Hzero.
  destruct (remove_user_effect u (participants db) db Hzero)
    as (HP & HE & HV & ? & ? & ? & ? & _).
  unfold removed. rewrite HP, HE, HV. split_and!; try done.
  - rewrite elem_of_without. by intros [].
  - rewrite elem_of_without. by intros [].
  - apply lookup_delete_eq.
  - intros x Hx. rewrite !elem_of_without, lookup_delete_ne by done. tauto.
Qed.

(** X5: a participant of an active session who sends exit is answered
    Left and is afterwards in none of the participants, the eligible
    voters and the voted users; every other user keeps their place and
    their vote, and the flag, the queue, the current song and the history
    are as before.  (A stored score 0, which no request writes, is the one
    vote the handler would not delete.) *)
Theorem exit_removes (i : Interaction) (db : DB) :
  session_active db ->
  member_user_id i ∈ participants db ->
  voted_users db !! member_user_id i <> Some 0 ->
  result (exit i db) = ChannelMessage Left true
  /\ removed (member_user_id i) db (store (exit i db)).
Proof.
  intros Ha Hin Hzero. rewrite exit_success by done. unfold result, store. cbn [fst snd].
  split; [done|]. by apply remove_user_removed.
Qed.

(** X6: kick does to its target what exit does to its sender: a target
    who participates in an active session is removed everywhere and the
    others are left alone; a target who does not participate is refused
    with TargetNotJoined. *)
Theorem kick_removes (i : Interaction) (target : UserId) (db : DB) :
  session_active db ->
  option_user (data_options i) = Some target ->
  voted_users db !! target <> Some 0 ->
  (target ∈ participants db ->
   result (kick i db) = ChannelMessage Kicked true
   /\ removed target db (store (kick i db)))
  /\ (target ∉ participants db ->
      kick i db
      = (ChannelMessage TargetNotJoined true, db,
         [Get "SESSION_ACTIVE"; Get "SESSION_PARTICIPANTS"])).
Proof.
  intros Ha Ht Hzero. split.
  - intros Hin. rewrite (kick_success i target) by done. unfold result, store. cbn [fst snd].
    split; [done|]. by apply remove_user_removed.
  - intros Hout. destruct db as [sa q cs sp ev vu h]. vocabulary. cbn in *. subst sa.
    unfold kick. handler. rewrite Ht. vocabulary. tests. reflexivity.
Qed.

(** X7: enter followed by exit of the same user gives back the store:
    for a session whose participants key holds a list without the user and
    whose rosters are consistent, the store after the two requests is the
    store before them. *)
Theorem enter_then_exit (i : Interaction) (db : DB) (P : list UserId) :
  session_active db ->
  db_SESSION_PARTICIPANTS db = Some P ->
  member_user_id i ∉ P ->
  (forall u, u ∈ eligible_voters db -> u ∈ P) ->
  (forall u, is_Some (voted_users db !! u) -> u ∈ eligible_voters db) ->
  result (enter i db) = ChannelMessage (Joined (S (length P))) true
  /\ result (exit i (store (enter i db))) = ChannelMessage Left true
  /\ store (exit i (store (enter i db))) = db.
Proof.
  intros Ha HP Hu HE HV.
  assert (participants db = P) as HP' by (unfold participants; by rewrite HP).
  rewrite enter_success by (by rewrite ?HP'). unfold result, store. cbn [fst snd].
  rewrite HP'. split; [by rewrite length_app, Nat.add_1_r|].
  set (db1 := cell_write SESSION_PARTICIPANTS (Some (P ++ [member_user_id i])) db).
  assert (session_active db1) as Ha1 by (by destruct db).
  assert (participants db1 = P ++ [member_user_id i]) as HP1 by (by destruct db).
  rewrite exit_success by (rewrite ?HP1; set_solver). cbn [fst snd]. split; [done|].
  rewrite HP1. unfold db1. clear db1 Ha1 HP1.
  assert (member_user_id i ∉ eligible_voters db) as HuE by (intros ?; by apply Hu, HE).
  assert (voted_users db !! member_user_id i = None) as HuV.
  { destruct (voted_users db !! member_user_id i) eqn:Hv; [|done].
    exfalso. apply HuE, HV. by rewrite Hv. }
  destruct db as [sa q cs sp ev vu h]. vocabulary. cbn in *. subst sa sp.
  unfold remove_user, store. handler. rewrite without_snoc by done.
  destruct ev as [E|], vu as [V|]; cbn in *; rewrite ?without_absent by done;
    try rewrite HuV; done.
Qed.

(** ** Playing the queue *)

Lemma vote_next_pops (db : DB) (t : Track) (rest : list Track) :
  session_active db ->
  current_song db = None ->
  queue db = t :: rest ->
  vote_next db
  = (next_announcement t (length rest),
     cell_write ELIGIBLE_VOTERS (Some (participants db))
       (cell_write VOTED_USERS (Some ∅)
          (cell_write CURRENT_SONG (Some (SongJSON (mkSong (track_title t) (track_id t) 0)))
             (cell_write QUEUE (Some rest) db))),
     [Get "SESSION_ACTIVE"; Get "CURRENT_SONG"; Get "QUEUE"; Put "QUEUE";
      Get "SESSION_PARTICIPANTS"; Put "CURRENT_SONG"; Put "VOTED_USERS";
      Put "ELIGIBLE_VOTERS"]).
Proof.
  destruct db as [sa q cs sp ev vu h]. vocabulary. cbn. intros -> Hs Hq.
  destruct cs as [[|song]|], q as [[|t' q]|]; try discriminate; cbn in Hq; simplify_eq; reflexivity.
Qed.

Lemma round_keeps (db : DB) (t : Track) (rest : list Track) :
  session_active db ->
  current_song db = None ->
  queue db = t :: rest ->
  let db' := store (vote_end (store (vote_next db))) in
  session_active db' /\ current_song db' = None /\ queue db' = rest.
Proof.
  intros Ha Hs Hq. cbv zeta. rewrite (vote_next_pops db t rest) by done.
  unfold store at 2. cbn [fst snd].
  erewrite vote_end_success; [|by destruct db].
  unfold store. cbn [fst snd]. by destruct db.
Qed.

(** X8: successive rounds of vote-next and vote-end play the queue in
    order: from an active session with no current song and the queue
    ts ++ rest, length ts rounds announce the tracks of ts one after the
    other, each with the number of tracks then left, and end with the
    queue rest and no current song. *)
Theorem queue_is_played_in_order (ts rest : list Track) (db : DB) :
  session_active db ->
  current_song db = None ->
  queue db = ts ++ rest ->
  (play (length ts) db).1 = announcements ts (length rest)
  /\ queue (play (length ts) db).2 = rest
  /\ current_song (play (length ts) db).2 = None
  /\ session_active (play (length ts) db).2.
Proof.
  revert db. induction ts as [|t ts IH]; intros db Ha Hs Hq.
  - done.
  - cbn [length play announcements fst snd]. cbn [app] in Hq.
    destruct (round_keeps db t (ts ++ rest) Ha Hs Hq) as (Ha' & Hs' & Hq').
    destruct (IH _ Ha' Hs' Hq') as (H1 & H2 & H3 & H4).
    rewrite H1. split_and!; try done.
    rewrite (vote_next_pops db t (ts ++ rest)) by done.
    unfold result. cbn [fst]. by rewrite length_app.
Qed.

(** ** The regular expressions *)

Lemma take_while_all (ok : ascii -> bool) (s : string) :
  all_chars ok (Text.take_while ok s) = true.
Proof. induction s as [|c s IH]; cbn; [done|]. destruct (ok c) eqn:E; cbn; [by rewrite E|done]. Qed.

Lemma take_while_id (ok : ascii -> bool) (s : string) :
  all_chars ok s = true -> Text.take_while ok s = s.
Proof.
  induction s as [|c s IH]; cbn; [done|].
  intros [-> Hs]%andb_true_iff. by rewrite IH.
Qed.

Lemma video_group_chars (s : string) (last : option string) (g : string) :
  video_group last s = Some g ->
  last = Some g \/ all_chars video_id_char g = true.
Proof.
  revert last. induction s as [|c s IH]; intros last.
  - unfold video_group.
    destruct (Text.match_alternatives video_markers "") as [rest|]; [|by left].
    intros [= <-]. right. apply take_while_all.
  - cbn [video_group].
    destruct (Text.match_alternatives video_markers (String c s)) as [rest|] eqn:E.
    + destruct (Text.line_terminator c).
      * intros [= <-]. right. apply take_while_all.
      * intros [[= <-]|H]%IH; right; [apply take_while_all|done].
    + destruct (Text.line_terminator c); [by left|apply IH].
Qed.

(** X9: an id that getVideoId extracts has exactly 11 characters, none of
    which is #, & or ?. *)
Theorem getVideoId_shape (url id : string) :
  getVideoId url = Some id ->
  String.length id = 11%nat
  /\ all_chars video_id_char id = true.
Proof.
  unfold getVideoId. destruct (video_group None url) as [g|] eqn:E; [|done].
  case_bool_decide as Hlen; [|done]. intros [= <-]. split; [done|].
  by destruct (video_group_chars _ _ _ E).
Qed.

Lemma getPlaylistId_chars (url id : string) :
  getPlaylistId url = Some id -> id <> "" /\ all_chars playlist_id_char id = true.
Proof.
  induction url as [|c s IH]; [done|]. cbn [getPlaylistId].
  destruct (bool_decide (c = "?"%char) || bool_decide (c = "&"%char)); [|apply IH].
  destruct (Text.match_atoms (Text.lits "list=") s) as [rest|]; [|apply IH].
  case_bool_decide as Hg; [apply IH|].
  intros [= <-]. split; [done|]. apply take_while_all.
Qed.

Lemma getPlaylistId_after_prefix (prefix rest : string) :
  all_chars query_free prefix = true ->
  getPlaylistId (prefix +:+ rest) = getPlaylistId rest.
Proof.
  induction prefix as [|c s IH]; [done|].
  intros [Hc Hs]%andb_true_iff.
  change (String c s +:+ rest) with (String c (s +:+ rest)).
  cbn [getPlaylistId]. unfold query_free in Hc. apply negb_true_iff in Hc. rewrite Hc.
  by apply IH.
Qed.

Lemma getPlaylistId_here (s rest : string) :
  Text.match_atoms (Text.lits "list=") s = Some rest ->
  Text.take_while playlist_id_char rest <> "" ->
  getPlaylistId (String "?" s) = Some (Text.take_while playlist_id_char rest).
Proof.
  intros Hs Hg. cbn [getPlaylistId]. rewrite Hs.
  rewrite (bool_decide_eq_false_2 _ Hg). reflexivity.
Qed.

(** X10: getPlaylistId reads back a list id: from a URL made of a part
    without ? and &, then ?list=, then an id that is not empty and holds
    no # and no &, it extracts exactly that id. *)
Theorem getPlaylistId_round_trip (base id : string) :
  all_chars query_free base = true ->
  id <> "" ->
  all_chars playlist_id_char id = true ->
  getPlaylistId (base +:+ "?list=" +:+ id) = Some id.
Proof.
  intros Hbase Hid Hchars. rewrite getPlaylistId_after_prefix by done.
  change ("?list=" +:+ id) with (String "?" ("list=" +:+ id)).
  rewrite (getPlaylistId_here _ id); rewrite ?take_while_id; done.
Qed.

(** X11: what getPlaylistId extracts is never empty and holds no # and no
    &, so a URL whose list parameter is empty has no list id. *)
Theorem getPlaylistId_shape (url id : string) :
  getPlaylistId url = Some id ->
  id <> "" /\ all_chars playlist_id_char id = true.
Proof. apply getPlaylistId_chars. Qed.

(** ** An ended session *)

Ltac handler_ended db :=
  intros [Hflag Hsong] E;
  destruct db as [sa q cs sp ev vu h];
  unfold current_song in Hsong; cbn in Hflag, Hsong; subst;
  handler; run E; cbn; first [by left|by right].

Lemma vote_ended (u : UserId) (p : Z) (vid : string) (db db' : DB) r l :
  ended db ->
  vote u p vid db = (r, db', l) ->
  is_SessionStarted r = true \/ (leaves_store r = true /\ db' = db).
Proof. handler_ended db. Qed.

Lemma command_ended (env : Env) (name : string) (i : Interaction) (db db' : DB) r l :
  ended db ->
  command env name i db = (r, db', l) ->
  is_SessionStarted r = true \/ (leaves_store r = true /\ db' = db).
Proof. unfold command. repeat case_match; handler_ended db. Qed.

Lemma post_ended (env : Env) (request : option Interaction) (db : DB) :
  ended db ->
  is_SessionStarted (result (post env request db)) = true
  \/ (leaves_store (result (post env request db)) = true
      /\ store (post env request db) = db).
Proof.
  intros Hdb.
  destruct (post env request db) as [[r db'] l] eqn:E. unfold result, store. cbn [fst snd].
  destruct (post_cases _ _ _ _ _ _ E)
    as [(-> & _ & Hr)|[(i & _ & _ & Hc)|(i & p & vid & _ & _ & _ & Hv)]].
  - right. split; [|done].
    repeat (apply elem_of_cons in Hr as [->|Hr]; [done|]). by apply elem_of_nil in Hr.
  - by eapply command_ended.
  - by eapply vote_ended.
Qed.

Lemma session_end_ended (db : DB) (summary : list SummaryLine) (ephemeral : bool) :
  result (session_end db) = ChannelMessage (SessionEnded summary) ephemeral ->
  ended (store (session_end db)).
Proof.
  destruct (session_end db) as [[r db'] l] eqn:E. unfold result, store. cbn [fst snd].
  intros ->. destruct db as [sa q cs sp ev vu h]. handler. run E.
  all: split; [done|]. all: unfold current_song; cbn.
  all: by destruct cs as [[|song]|].
Qed.

(** X12: an ended session is frozen.  Once session-end has answered with
    the summary, every request is either refused (or lists nothing) with
    the store unchanged, or is a session-start that succeeds: no vote, no
    enter, exit or kick, no vote-start, vote-next or vote-end and no second
    session-end changes anything. *)
Theorem ended_session_is_frozen (env : Env) (db : DB) (summary : list SummaryLine)
    (ephemeral : bool) (request : option Interaction) :
  result (session_end db) = ChannelMessage (SessionEnded summary) ephemeral ->
  let db' := store (session_end db) in
  is_SessionStarted (result (post env request db')) = true
  \/ (leaves_store (result (post env request db')) = true
      /\ store (post env request db') = db').
Proof. intros H. apply post_ended. by eapply session_end_ended. Qed.

(** ** The history *)

Ltac handler_history db :=
  intros E;
  destruct db as [sa q cs sp ev vu h];
  handler; run E;
  first [ by apply history_same | by apply history_deleted | by eapply history_saved ].

Lemma vote_history (u : UserId) (p : Z) (vid : string) (db db' : DB) r l :
  vote u p vid db = (r, db', l) -> history_effect db (history db').
Proof. handler_history db. Qed.

Lemma command_history (env : Env) (name : string) (i : Interaction) (db db' : DB) r l :
  command env name i db = (r, db', l) -> history_effect db (history db').
Proof. unfold command. repeat case_match; handler_history db. Qed.

Lemma post_history (env : Env) (request : option Interaction) (db : DB) :
  history_effect db (history (store (post env request db))).
Proof.
  destruct (post env request db) as [[r db'] l] eqn:E. unfold store. cbn [fst snd].
  destruct (post_cases _ _ _ _ _ _ E)
    as [(-> & _)|[(i & _ & _ & Hc)|(i & p & vid & _ & _ & _ & Hv)]].
  - by apply history_same.
  - by eapply command_history.
  - by eapply vote_history.
Qed.

Section Dict.
Context {A : Type}.
Implicit Types (o : JSObject.dict A) (k : string) (a : A).

Lemma own_None o k : JSObject.own o k = None <-> k ∉ o.*1.
Proof.
  induction o as [|[k0 a0] o IH]; cbn.
  - split; [intros _; apply not_elem_of_nil|done].
  - rewrite not_elem_of_cons. case_bool_decide as Hk.
    + split; [done|]. intros [Hne _]. by destruct Hne.
    + rewrite IH. split; [by intros ?; split; [congruence|]|by intros [_ ?]].
Qed.

Lemma own_Some o k a : JSObject.own o k = Some a -> (k, a) ∈ o.
Proof.
  induction o as [|[k0 a0] o IH]; cbn; [done|].
  case_bool_decide as Hk.
  - intros [= ->]. rewrite Hk. left.
  - intros Ho. right. by apply IH.
Qed.

Lemma update_keys o k (f : A -> A) : (JSObject.update k f o).*1 = o.*1.
Proof.
  induction o as [|[k0 a0] o IH]; cbn; [done|].
  case_bool_decide; cbn; [done|]. by rewrite IH.
Qed.

Lemma update_values (P : A -> Prop) o k (f : A -> A) :
  (forall a, (k, a) ∈ o -> P a -> P (f a)) ->
  Forall P o.*2 -> Forall P (JSObject.update k f o).*2.
Proof.
  induction o as [|[k0 a0] o IH]; cbn; [done|].
  intros Hf [Ha Ho]%Forall_cons. case_bool_decide; simplify_eq; cbn.
  - apply Forall_cons. split; [|done]. apply Hf; [left|done].
  - apply Forall_cons. split; [done|]. apply IH; [|done].
    intros a Hin. apply Hf. by right.
Qed.

Lemma insert_index_Permutation (n : N) o k a :
  JSObject.insert_index n k a o ≡ₚ (k, a) :: o.
Proof.
  induction o as [|[k0 a0] o IH]; cbn; [done|].
  destruct (JSObject.array_index k0) as [n0|]; [destruct (n0 <? n)%N|]; try done.
  rewrite IH. apply Permutation_swap.
Qed.

Lemma create_Permutation o k a : JSObject.create k a o ≡ₚ (k, a) :: o.
Proof.
  unfold JSObject.create. destruct (JSObject.array_index k) as [n|].
  - apply insert_index_Permutation.
  - by rewrite Permutation_app_comm.
Qed.

End Dict.

Lemma save_to_history_well_formed (song : Song) (points voters participants_ : Z)
    (h : History) :
  bounded_statistics points voters participants_ ->
  well_formed_history h ->
  well_formed_history (save_to_history song points voters participants_ h).
Proof.
  intros Hb (Hdup & Hnames & Hentries). unfold save_to_history, JSObject.get_property.
  destruct (JSObject.own h (song_id song)) as [e|] eqn:E.
  - unfold well_formed_history. rewrite update_keys. split_and!; [done|done|].
    apply update_values; [|done].
    intros a _. unfold bounded_entry, bounded_statistics, add_to_entry in *. cbn. lia.
  - case_bool_decide as Hid; [done|].
    apply own_None in E.
    pose proof (create_Permutation h (song_id song)
                  (mkEntry (song_title song) points voters participants_)) as Hperm.
    unfold well_formed_history, JSObject.values. split_and!.
    + rewrite Hperm. cbn. by apply NoDup_cons.
    + intros k Hk. rewrite Hperm in Hk. cbn in Hk.
      apply elem_of_cons in Hk as [->|Hk]; [done|by apply Hnames].
    + rewrite Hperm. cbn. by apply Forall_cons.
Qed.

Lemma serve_well_formed_history (env : Env) (requests : list (option Interaction)) :
  well_formed_history (history (serve env empty_DB requests)).
Proof.
  induction requests as [|request requests IH] using rev_ind.
  - cbn. split_and!; [apply NoDup_nil_2|by intros k ?%elem_of_nil|apply Forall_nil_2].
  - rewrite serve_snoc. set (db := serve env empty_DB requests) in *.
    destruct (post_history env request db) as [->| ->|song ->].
    + done.
    + split_and!; [apply NoDup_nil_2|by intros k ?%elem_of_nil|apply Forall_nil_2].
    + apply save_to_history_well_formed; [|done].
      destruct (serve_consistent_rosters env requests) as (_ & _ & _ & Hvoted).
      pose proof (serve_scores env requests) as Hscores.
      split.
      * split; [by apply total_at_least_voters|by apply total_at_most_twice_voters].
      * split; [lia|]. apply inj_le. by apply voters_at_most_eligible.
Qed.

(** X13: the history of every store reached from the initial one is well
    formed: no video id is listed twice, no id is a property name of
    Object.prototype, and every entry has between one and two points per
    voter and no more voters than participants. *)
Theorem history_stays_well_formed (env : Env) (requests : list (option Interaction)) :
  let h := history (serve env empty_DB requests) in
  NoDup h.*1
  /\ (forall k, k ∈ h.*1 -> k ∉ JSObject.Object_prototype_names)
  /\ Forall bounded_entry (JSObject.values h).
Proof. apply serve_well_formed_history. Qed.

(** X14: in every store reached from the initial one, the summary that
    session-end announces has one line per id of the history, and every
    line reports an average between 0 and 2. *)
Theorem summary_is_bounded (env : Env) (requests : list (option Interaction))
    (summary : list SummaryLine) (ephemeral : bool) :
  result (session_end (serve env empty_DB requests))
  = ChannelMessage (SessionEnded summary) ephemeral ->
  length summary = length (history (serve env empty_DB requests))
  /\ Forall bounded_line summary.
Proof.
  pose proof (serve_well_formed_history env requests) as (_ & _ & Hentries).
  set (db := serve env empty_DB requests) in *.
  destruct (session_end db) as [[r db'] l] eqn:E. unfold result. cbn [fst].
  intros ->. destruct db as [sa q cs sp ev vu h]. unfold history in *. cbn in Hentries |- *.
  handler. run E.
  change (foldr (sort_insert by_average) [] (default [] h).*2)
    with (Array_sort by_average (default [] h).*2).
  split.
  - by rewrite length_map, (Array_sort_Permutation by_average), length_fmap.
  - apply Forall_fmap. rewrite (Array_sort_Permutation by_average).
    eapply Forall_impl; [exact Hentries|].
    intros e [Hp Hv]. unfold bounded_line, summary_line, compose. cbn.
    destruct (average_of_bounds _ _ _ Hp Hv). split_and!; [done|done|lia].
Qed.

(** ** The buttons of an announcement *)

Lemma voteMatch_button (n : ascii) (vid : string) :
  voteMatch ("vote_" +:+ String n (String "_" vid))
  = if bool_decide (vid <> "") && Text.no_line_terminator vid then
      if bool_decide (n = "1"%char) then Some (1, vid)
      else if bool_decide (n = "2"%char) then Some (2, vid)
      else None
    else None.
Proof. reflexivity. Qed.

Lemma voteMatch_buttons (vid : string) :
  voteMatch <$> vote_buttons vid
  = if bool_decide (vid <> "") && Text.no_line_terminator vid
    then [Some (1, vid); Some (2, vid)] else [None; None].
Proof.
  unfold vote_buttons. cbn [fmap list_fmap].
  change ("vote_1_" +:+ vid) with ("vote_" +:+ String "1" (String "_" vid)).
  change ("vote_2_" +:+ vid) with ("vote_" +:+ String "2" (String "_" vid)).
  rewrite !voteMatch_button. by destruct (_ && _).
Qed.

Lemma start_track_buttons (env : Env) (t : TrackStart) (db db' : DB) (l : list access)
    remaining title url image ids ephemeral :
  start_track env t db
  = (ChannelMessage (NowPlaying remaining title url image ids) ephemeral, db', l) ->
  exists vid, ids = vote_buttons vid /\ song_id <$> current_song db' = Some vid.
Proof.
  intros E. destruct db as [sa q cs sp ev vu h], t as [i|]; unfold start_track in E;
    handler; run E; by eexists.
Qed.

(** X15: the buttons of an announcement are those of the song that becomes
    current.  When vote-start or vote-next announces a track, the two
    custom ids it attaches are vote_1_ and vote_2_ followed by the id of
    the stored current song; the pattern of the button handler reads them
    back as 1 and 2 points for that id when the id is not empty and has no
    line terminator, and matches neither of them otherwise. *)
Theorem announced_buttons (env : Env) (t : TrackStart) (db : DB)
    (remaining : option nat) (title url image : string) (ids : list string)
    (ephemeral : bool) :
  result (start_track env t db)
  = ChannelMessage (NowPlaying remaining title url image ids) ephemeral ->
  exists vid,
    ids = vote_buttons vid
    /\ song_id <$> current_song (store (start_track env t db)) = Some vid
    /\ (vid <> "" -> Text.no_line_terminator vid = true ->
        voteMatch <$> ids = [Some (1, vid); Some (2, vid)])
    /\ (vid = "" \/ Text.no_line_terminator vid = false ->
        voteMatch <$> ids = [None; None]).
Proof.
  destruct (start_track env t db) as [[r db'] l] eqn:E. unfold result, store. cbn [fst snd].
  intros ->. destruct (start_track_buttons _ _ _ _ _ _ _ _ _ _ _ E) as (vid & -> & Hsong).
  exists vid. split_and!; try done.
  - intros Hne Hlt. by rewrite voteMatch_buttons, Hlt, bool_decide_eq_true_2.
  - intros [->|Hlt]; rewrite voteMatch_buttons; [done|]. rewrite Hlt. by rewrite andb_false_r.
Qed.

(** The refusal of enter before any session. *)
Lemma refusals_leave_the_store_witness :
  store (post test_env (slash alice "enter" no_options) empty_DB) = empty_DB
  /\ writes (post test_env (slash alice "enter" no_options) empty_DB) = [].
Proof.
  apply (refusals_leave_the_store test_env (slash alice "enter" no_options) empty_DB).
  vm_compute. reflexivity.
Defined.

(** The vote with 2 points of alice and 1 point of bob. *)
Lemma vote_end_report_bounds_witness :
  2 <= 3 <= 2 * 2 /\ 0 <= 2 <= 2 /\ (0 <= 3 # 2)%Q /\ (3 # 2 <= 2)%Q.
Proof.
  apply (vote_end_report_bounds test_env voted_requests "Unknown Song" 3 2 2 (3 # 2)%Q
           true false).
  vm_compute. reflexivity.
Defined.

(** alice leaves the open vote. *)
Lemma exit_removes_witness :
  result (exit alice_exits voting_db) = ChannelMessage Left true
  /\ removed alice voting_db (store (exit alice_exits voting_db)).
Proof.
  apply (exit_removes alice_exits voting_db).
  - reflexivity.
  - apply (bool_decide_unpack _). vm_compute. exact I.
  - vm_compute. discriminate.
Defined.

(** The manager kicks alice out of the open vote. *)
Lemma kick_removes_witness :
  result (kick kick_alice voting_db) = ChannelMessage Kicked true
  /\ removed alice voting_db (store (kick kick_alice voting_db)).
Proof.
  destruct (kick_removes kick_alice alice voting_db) as [Hin _].
  - reflexivity.
  - reflexivity.
  - vm_compute. discriminate.
  - apply Hin. apply (bool_decide_unpack _). vm_compute. exact I.
Defined.

(** bob enters the session of alice and leaves it. *)
Lemma enter_then_exit_witness :
  result (enter bob_enters alice_db) = ChannelMessage (Joined 2) true
  /\ result (exit bob_enters (store (enter bob_enters alice_db))) = ChannelMessage Left true
  /\ store (exit bob_enters (store (enter bob_enters alice_db))) = alice_db.
Proof.
  apply (enter_then_exit bob_enters alice_db [alice]).
  - reflexivity.
  - reflexivity.
  - apply (bool_decide_unpack _). vm_compute. exact I.
  - intros u Hu. vm_compute in Hu. by apply elem_of_nil in Hu.
  - intros u [p Hu]. change (voted_users alice_db) with (∅ : VotedUsers) in Hu.
    by rewrite lookup_empty in Hu.
Defined.

(** Two rounds on the queue of three tracks. *)
Lemma queue_is_played_in_order_witness :
  (play 2 queued_db).1
  = [next_announcement (mkTrack "A" "aaaaaaaaaaa" None) 2;
     next_announcement (mkTrack "B" "bbbbbbbbbbb" None) 1]
  /\ queue (play 2 queued_db).2 = [mkTrack "C" "ccccccccccc" None]
  /\ current_song (play 2 queued_db).2 = None
  /\ session_active (play 2 queued_db).2.
Proof.
  apply (queue_is_played_in_order
           [mkTrack "A" "aaaaaaaaaaa" None; mkTrack "B" "bbbbbbbbbbb" None]
           [mkTrack "C" "ccccccccccc" None] queued_db); reflexivity.
Defined.

Lemma getVideoId_shape_witness :
  String.length track_x = 11%nat /\ all_chars video_id_char track_x = true.
Proof. apply (getVideoId_shape url_x track_x). vm_compute. reflexivity. Defined.

Lemma getPlaylistId_round_trip_witness :
  getPlaylistId ("https://www.youtube.com/playlist" +:+ "?list=" +:+ "PL123") = Some "PL123".
Proof.
  apply (getPlaylistId_round_trip "https://www.youtube.com/playlist" "PL123");
    [vm_compute; reflexivity|discriminate|vm_compute; reflexivity].
Defined.

Lemma getPlaylistId_shape_witness :
  "PL123" <> "" /\ all_chars playlist_id_char "PL123" = true.
Proof.
  apply (getPlaylistId_shape "https://www.youtube.com/playlist?list=PL123&si=x" "PL123").
  vm_compute. reflexivity.
Defined.

(** enter after the session without tracks has ended. *)
Lemma ended_session_is_frozen_witness :
  is_SessionStarted
    (result (post test_env (slash alice "enter" no_options) (store (session_end open_db))))
  = true
  \/ (leaves_store
        (result (post test_env (slash alice "enter" no_options) (store (session_end open_db))))
      = true
      /\ store (post test_env (slash alice "enter" no_options) (store (session_end open_db)))
         = store (session_end open_db)).
Proof.
  apply (ended_session_is_frozen test_env open_db [] false (slash alice "enter" no_options)).
  vm_compute. reflexivity.
Defined.

(** The summary after one track that nobody voted on. *)
Lemma summary_is_bounded_witness :
  length [mkSummaryLine "Unknown Song" (0 # 2) 0]
  = length (history (serve test_env empty_DB ended_requests))
  /\ Forall bounded_line [mkSummaryLine "Unknown Song" (0 # 2) 0].
Proof.
  apply (summary_is_bounded test_env ended_requests
           [mkSummaryLine "Unknown Song" (0 # 2) 0] false).
  vm_compute. reflexivity.
Defined.

(** The manager starts a vote on [url_x] in the session of alice. *)
Lemma announced_buttons_witness :
  exists vid,
    vote_buttons track_x = vote_buttons vid
    /\ song_id <$> current_song (store (start_track test_env (StartVoteOnUrl start_x) alice_db))
       = Some vid
    /\ (vid <> "" -> Text.no_line_terminator vid = true ->
        voteMatch <$> vote_buttons track_x = [Some (1, vid); Some (2, vid)])
    /\ (vid = "" \/ Text.no_line_terminator vid = false ->
        voteMatch <$> vote_buttons track_x = [None; None]).
Proof.
  apply (announced_buttons test_env (StartVoteOnUrl start_x) alice_db None "Unknown Song"
           url_x (default_image track_x) (vote_buttons track_x) false).
  vm_compute. reflexivity.
Defined.
